(** * tts-skill: the generation lifecycle, embedded and verified

    A shallow embedding of the Python service under [src/app]:
    - [tts.py]       the speech backend client ([clean_text_for_tts],
                     [submit_tts_job], [check_tts_status], [download_audio]);
    - [database.py]  the record store ([create_generation],
                     [update_generation_completed], [update_generation_failed],
                     [upload_audio_to_storage], [refresh_signed_url], ...);
    - [main.py]      the polling loop [process_tts_job] and the endpoint
                     [api_generate].

    Python values that travel through JSON are the type [json]; a Python
    [dict] is a [gmap string json]; a Python [str] is a [string] whose
    characters are code points below 256.  Everything the program learns from
    outside (HTTP responses, storage answers, the clock, fresh identifiers)
    is read from a [world]; the polling loop sees one world per attempt.
    Calls that raise are values [Raises e]; the record table and the log of
    external calls are threaded through a state-and-exception monad [M].

    The table is the store's own: an insert stores the row, an update with
    [.eq("id", gen_id)] changes the row with that id and is a no-op when
    there is none, and these operations return.  Logging calls and the
    dictionary [active_jobs], which is written and never read, are left
    out. *)

From Stdlib Require Import ZArith QArith String Ascii List Lia.
From stdpp Require Import gmap strings list pretty.

#[local] Set Warnings "-register-all".
#[local] Open Scope string_scope.
#[local] Open Scope list_scope.
#[local] Open Scope Z_scope.

(** ** Python values *)

Module Py.

(** What [json.loads] produces: [None], [bool], numbers, [str], [list] and
    [dict] with string keys. *)
Inductive json :=
| JNull
| JBool (b : bool)
| JNum (q : Q)
| JStr (s : string)
| JArr (items : list json)
| JObj (fields : gmap string json).

(** A raised exception; [str(e)] is its message. *)
Inductive exn :=
| Exception (msg : string)
| HTTPException (code : Z) (detail : string).

(** [str(e)]; for FastAPI's [HTTPException] it is ["{status_code}: {detail}"]. *)
Definition str_of_exn (e : exn) : string :=
  match e with
  | Exception msg => msg
  | HTTPException code detail => pretty code +:+ ": " +:+ detail
  end.

(** The result of a call that may raise. *)
Inductive outcome (A : Type) :=
| Returns (a : A)
| Raises (e : exn).
Arguments Returns {A} a.
Arguments Raises {A} e.

Definition obind {A B} (o : outcome A) (k : A -> outcome B) : outcome B :=
  match o with
  | Returns a => k a
  | Raises e => Raises e
  end.

(** [bool(v)], the test behind [if v:] and [not v]. *)
Definition truthy (v : json) : bool :=
  match v with
  | JNull => false
  | JBool b => b
  | JNum q => negb (Qeq_bool q 0)
  | JStr s => negb (String.eqb s "")
  | JArr items => match items with [] => false | _ :: _ => true end
  | JObj fields => negb (bool_decide (fields = ∅))
  end.

(** [v == "literal"] for a string literal. *)
Definition eq_str (v : json) (lit : string) : bool :=
  match v with
  | JStr s => String.eqb s lit
  | _ => false
  end.

(** [d.get(key, default)] on a dict. *)
Definition dict_get (d : gmap string json) (key : string) (default : json) : json :=
  match d !! key with
  | Some v => v
  | None => default
  end.

(** [type(v).__name__].  A number is kept by its value alone, so a float
    with an integral value, such as the 1.0 of a JSON text, is named as the
    integer it equals. *)
Definition type_name (v : json) : string :=
  match v with
  | JNull => "NoneType"
  | JBool _ => "bool"
  | JNum q => if decide (Qden (Qred q) = 1%positive) then "int" else "float"
  | JStr _ => "str"
  | JArr _ => "list"
  | JObj _ => "dict"
  end.

(** [v.get(key, default)] on an arbitrary value: only a dict has [get];
    on anything else the attribute lookup raises [AttributeError], whose
    text names the type of the value. *)
Definition get (v : json) (key : string) (default : json) : outcome json :=
  match v with
  | JObj d => Returns (dict_get d key default)
  | _ => Raises (Exception ("'" +:+ type_name v
                            +:+ "' object has no attribute 'get'"))
  end.

(** [d[key]] on a dict: [KeyError] when the key is missing. *)
Definition index (d : gmap string json) (key : string) : outcome json :=
  match d !! key with
  | Some v => Returns v
  | None => Raises (Exception ("KeyError: " +:+ key))
  end.

(** [str.isspace] on the code points below 256: the characters that
    [str.strip()] removes. *)
Definition isspace (c : ascii) : bool :=
  let n := nat_of_ascii c in
  ((9 <=? n) && (n <=? 13) || (28 <=? n) && (n <=? 32)
   || (n =? 133) || (n =? 160))%nat.

Fixpoint lstrip (s : string) : string :=
  match s with
  | EmptyString => EmptyString
  | String c rest => if isspace c then lstrip rest else s
  end.

(** [s.rstrip()]: a character is dropped when it is white space and
    everything after it has been dropped too. *)
Fixpoint rstrip (s : string) : string :=
  match s with
  | EmptyString => EmptyString
  | String c rest =>
      match rstrip rest with
      | EmptyString => if isspace c then EmptyString else String c EmptyString
      | kept => String c kept
      end
  end.

(** [s.strip()] *)
Definition strip (s : string) : string := rstrip (lstrip s).

(** [len(s)] *)
Definition len (s : string) : Z := Z.of_nat (String.length s).

End Py.
Import Py.

Notation "x <-? o ; k" := (obind o (fun x => k))
  (at level 100, o at next level, right associativity, only parsing).

(** ** The outside world

    An HTTP response as [httpx] hands it over: [response.json()] parses the
    body and raises when the body is not JSON. *)
Record response := {
  status_code : Z;
  text : string;
  content : list Byte.byte;
  json_body : outcome json;
}.

(** [response.text] where a parameter called [text] is in scope. *)
Definition response_text (r : response) : string := text r.

(** Everything one attempt can observe from outside the process. *)
Record world := {
  (** [POST {RUNPOD_ENDPOINT}/run] with the given JSON payload *)
  post_run : json -> outcome response;
  (** [POST {RUNPOD_ENDPOINT}/status/{run_id}] with an empty JSON object *)
  post_status : string -> outcome response;
  (** [GET url] *)
  http_get : json -> outcome response;
  (** [supabase.storage.from_(BUCKET_NAME).upload(path, bytes, ...)] *)
  storage_upload : string -> list Byte.byte -> outcome unit;
  (** [supabase.storage.from_(BUCKET_NAME).create_signed_url(path, seconds)] *)
  storage_create_signed_url : string -> Z -> outcome json;
  (** [generate_title_and_description(text)] of groq_service.py; it wraps
      its remote call in [try/except] with a local fallback and so always
      returns a pair *)
  generate_title_and_description : string -> string * string;
  (** [str(uuid.uuid4())] *)
  uuid4 : string;
  (** [datetime.now(timezone.utc).isoformat()] *)
  now : string;
}.

(** ** config.py *)

Definition DEFAULT_VOICE : string := "af_heart".
Definition DEFAULT_SPEED : Q := 1%Q.
Definition MAX_TEXT_LENGTH : Z := 25000.

(** ** tts.py: the speech backend client *)

(** [re.sub(r'\*', '', text)]: scan left to right, drop each match of the
    one-character pattern, copy every other character. *)
Fixpoint re_sub_char (pat : ascii) (s : string) : string :=
  match s with
  | EmptyString => EmptyString
  | String c rest =>
      if Ascii.eqb c pat then re_sub_char pat rest
      else String c (re_sub_char pat rest)
  end.

Definition clean_text_for_tts (text : string) : string :=
  let cleaned := re_sub_char "*"%char text in
  cleaned.

(** [voice or DEFAULT_VOICE] *)
Definition voice_or_default (voice : json) : json :=
  if truthy voice then voice else JStr DEFAULT_VOICE.

Definition submit_payload (text : string) (voice : json) : json :=
  JObj {[ "input" :=
    JObj (<["text" := JStr (clean_text_for_tts text)]>
          (<["voice" := voice_or_default voice]>
           {[ "speed" := JNum DEFAULT_SPEED ]})) ]}.

Definition submit_tts_job (w : world) (text : string) (voice : json) : outcome json :=
  response <-? post_run w (submit_payload text voice);
  if negb (status_code response =? 200) then
    Raises (Exception ("RunPod API failed: " +:+ pretty (status_code response)
                       +:+ " - " +:+ response_text response))
  else
    data <-? json_body response;
    get data "id" JNull.

Definition check_tts_status (w : world) (run_id : string) : outcome (gmap string json) :=
  response <-? post_status w run_id;
  data <-? json_body response;
  status <-? get data "status" (JStr "UNKNOWN");
  let result : gmap string json := {[ "status" := status ]} in
  if eq_str status "COMPLETED" then
    output <-? get data "output" (JObj ∅);
    download_url <-? get output "download_url" JNull;
    Returns (<["download_url" := download_url]> result)
  else if eq_str status "FAILED" || eq_str status "ERROR" then
    error <-? get data "error" (JStr "Unknown error");
    Returns (<["error" := error]> result)
  else
    Returns result.

Definition download_audio (w : world) (download_url : json) : outcome (list Byte.byte) :=
  response <-? http_get w download_url;
  if negb (status_code response =? 200) then
    Raises (Exception ("Failed to download audio: " +:+ pretty (status_code response)))
  else
    Returns (content response).

(** ** The record table, the call log and the monad of the stateful code *)

(** One row of the table [tts_skill_generations].  A column that no write
    has filled is SQL NULL, read back as [None]: [JNull]. *)
Record Generation := {
  id : string;
  title : json;
  description : json;
  text_content : string;
  status : string;
  created_at : string;
  storage_path : json;
  file_url : json;
  error : json;
  completed_at : json;
}.

(** The calls that leave the process, in the order they are made. *)
Inductive event :=
| Sleep (seconds : Z)
| StatusQuery (run_id : string)
| Download (url : json)
| Upload (path : string) (audio : list Byte.byte)
| CreateSignedUrl (path : string) (expires_in : Z)
| Insert (row : Generation)
| UpdateCompleted (gen_id : string) (path : string) (url : json) (at_ : string)
| UpdateFailed (gen_id : string) (err : json) (at_ : string)
| AddTask (gen_id : string) (runpod_job_id : json).

Record state := {
  table : gmap string Generation;
  trace : list event;
}.

Definition M (A : Type) : Type := state -> outcome A * state.

Definition ret {A} (a : A) : M A := fun s => (Returns a, s).

Definition raise {A} (e : exn) : M A := fun s => (Raises e, s).

Definition bind {A B} (m : M A) (k : A -> M B) : M B :=
  fun s => match m s with
           | (Returns a, s') => k a s'
           | (Raises e, s') => (Raises e, s')
           end.

(** [try: m  except Exception as e: h e]; what [m] did before it raised
    stays done. *)
Definition try_except {A} (m : M A) (h : exn -> M A) : M A :=
  fun s => match m s with
           | (Returns a, s') => (Returns a, s')
           | (Raises e, s') => h e s'
           end.

Definition emit (e : event) : M unit :=
  fun s => (Returns tt, {| table := table s; trace := trace s ++ [e] |}).

(** An external call: logged, then its outcome taken from the world. *)
Definition call {A} (e : event) (o : outcome A) : M A :=
  fun s => (o, {| table := table s; trace := trace s ++ [e] |}).

Notation "x <- m ;; k" := (bind m (fun x => k))
  (at level 100, m at next level, right associativity, only parsing).
Notation "m ;;; k" := (bind m (fun _ => k))
  (at level 100, right associativity, only parsing).

Definition lift {A} (o : outcome A) : M A := fun s => (o, s).

(** ** database.py: the record store *)

(** [result.data[0] if result.data else None] *)
Definition first_or_none (data : list Generation) : option Generation :=
  match data with
  | row :: _ => Some row
  | [] => None
  end.

(** [supabase.table(TABLE_NAME).insert(record).execute()]: the row is
    stored under its id and comes back in [result.data]. *)
Definition insert_execute (record : Generation) : M (list Generation) :=
  fun s => (Returns [record],
            {| table := <[id record := record]> (table s);
               trace := trace s ++ [Insert record] |}).

(** [supabase.table(TABLE_NAME).update(update_data).eq("id", gen_id).execute()]:
    the row with that id, if there is one, gets the new columns and comes
    back in [result.data]; with no such row nothing changes and
    [result.data] is empty. *)
Definition update_execute (update_data : Generation -> Generation)
    (gen_id : string) (logged : event) : M (list Generation) :=
  fun s =>
    let table' := alter update_data gen_id (table s) in
    (Returns (match table' !! gen_id with Some row => [row] | None => [] end),
     {| table := table'; trace := trace s ++ [logged] |}).

Definition create_generation (w : world) (text_content : string)
    (title description : json) : M (option Generation) :=
  let record :=
    {| id := uuid4 w;
       title := title;
       description := description;
       text_content := text_content;
       status := "processing";
       created_at := now w;
       storage_path := JNull;
       file_url := JNull;
       error := JNull;
       completed_at := JNull |} in
  data <- insert_execute record ;;
  ret (first_or_none data).

(** The columns written by [update_generation_completed]. *)
Definition set_completed (path : string) (url : json) (at_ : string)
    (g : Generation) : Generation :=
  {| id := id g;
     title := title g;
     description := description g;
     text_content := text_content g;
     status := "completed";
     created_at := created_at g;
     storage_path := JStr path;
     file_url := url;
     error := error g;
     completed_at := JStr at_ |}.

(** The columns written by [update_generation_failed]. *)
Definition set_failed (err : json) (at_ : string) (g : Generation) : Generation :=
  {| id := id g;
     title := title g;
     description := description g;
     text_content := text_content g;
     status := "failed";
     created_at := created_at g;
     storage_path := storage_path g;
     file_url := file_url g;
     error := err;
     completed_at := JStr at_ |}.

Definition update_generation_completed (w : world) (gen_id : string)
    (storage_path : string) (file_url : json) : M (option Generation) :=
  data <- update_execute (set_completed storage_path file_url (now w)) gen_id
            (UpdateCompleted gen_id storage_path file_url (now w)) ;;
  ret (first_or_none data).

Definition update_generation_failed (w : world) (gen_id : string)
    (error : json) : M (option Generation) :=
  data <- update_execute (set_failed error (now w)) gen_id
            (UpdateFailed gen_id error (now w)) ;;
  ret (first_or_none data).

Definition upload_audio_to_storage (w : world) (audio_bytes : list Byte.byte)
    (gen_id : string) : M (string * json) :=
  let storage_path := gen_id +:+ ".mp3" in
  _ <- call (Upload storage_path audio_bytes)
            (storage_upload w storage_path audio_bytes) ;;
  signed_url_response <-
    call (CreateSignedUrl storage_path 1209600)
         (storage_create_signed_url w storage_path 1209600) ;;
  file_url <- lift (get signed_url_response "signedURL" (JStr "")) ;;
  ret (storage_path, file_url).

Definition refresh_signed_url (w : world) (storage_path : string) : M json :=
  try_except
    (response <- call (CreateSignedUrl storage_path 3600)
                      (storage_create_signed_url w storage_path 3600) ;;
     lift (get response "signedURL" (JStr "")))
    (fun _ => ret (JStr "")).

(** ** main.py: the polling loop *)

(** How one pass through the loop body ends: at the bottom of the body
    (the [for] goes on) or at a [return]. *)
Inductive flow :=
| NextAttempt
| Returned.

Definition max_attempts : nat := 60.

(** The body of the [try] block of one attempt. *)
Definition attempt_try (w : world) (gen_id runpod_job_id : string) : M flow :=
  result <- call (StatusQuery runpod_job_id) (check_tts_status w runpod_job_id) ;;
  status <- lift (index result "status") ;;
  if eq_str status "COMPLETED" then
    let download_url := dict_get result "download_url" JNull in
    (if truthy download_url then
       audio_bytes <- call (Download download_url) (download_audio w download_url) ;;
       stored <- upload_audio_to_storage w audio_bytes gen_id ;;
       let '(storage_path, file_url) := stored in
       update_generation_completed w gen_id storage_path file_url
     else
       update_generation_failed w gen_id (JStr "No download URL received")) ;;;
    ret Returned
  else if eq_str status "FAILED" || eq_str status "ERROR" then
    let error := dict_get result "error" (JStr "Unknown error") in
    update_generation_failed w gen_id error ;;;
    ret Returned
  else
    ret NextAttempt.

(** One iteration: the sleep, then the [try] block; an exception from the
    block is logged and the iteration ends normally. *)
Definition attempt (w : world) (gen_id runpod_job_id : string) : M flow :=
  emit (Sleep 5) ;;;
  try_except (attempt_try w gen_id runpod_job_id) (fun _ => ret NextAttempt).

(** [for attempt in range(max_attempts)], from iteration [i] on with
    [remaining] iterations left; [env i] is the world of iteration [i]. *)
Fixpoint poll_loop (env : nat -> world) (gen_id runpod_job_id : string)
    (remaining i : nat) : M flow :=
  match remaining with
  | O => ret NextAttempt
  | S remaining' =>
      f <- attempt (env i) gen_id runpod_job_id ;;
      match f with
      | Returned => ret Returned
      | NextAttempt => poll_loop env gen_id runpod_job_id remaining' (S i)
      end
  end.

(** The background task.  When the loop runs out, the world is the one
    reached after the last attempt, [env max_attempts]. *)
Definition process_tts_job (env : nat -> world) (gen_id runpod_job_id : string) : M unit :=
  f <- poll_loop env gen_id runpod_job_id max_attempts 0 ;;
  match f with
  | Returned => ret tt
  | NextAttempt =>
      update_generation_failed (env max_attempts) gen_id
        (JStr "Generation timed out") ;;;
      ret tt
  end.

(** ** main.py: POST /api/generate *)

Record GenerateRequest := {
  request_text : string;
  request_title : json;
}.

Record GenerateResponse := {
  job_id : string;
  response_status : string;
}.

Definition api_generate (w : world) (request : GenerateRequest) : M GenerateResponse :=
  let text := strip (request_text request) in
  if negb (truthy (JStr text)) then
    raise (HTTPException 400 "Text is required")
  else if MAX_TEXT_LENGTH <? len text then
    raise (HTTPException 400
             ("Text too long (max " +:+ pretty MAX_TEXT_LENGTH +:+ " chars)"))
  else
    let title := request_title request in
    let '(title, description) :=
      if negb (truthy title) then
        let '(t, d) := generate_title_and_description w text in (JStr t, JStr d)
      else
        let '(_, d) := generate_title_and_description w text in (title, JStr d) in
    gen <- create_generation w text title description ;;
    match gen with
    | None => raise (HTTPException 500 "Failed to create generation record")
    | Some gen =>
        let gen_id := id gen in
        try_except
          (runpod_job_id <- lift (submit_tts_job w text JNull) ;;
           emit (AddTask gen_id runpod_job_id) ;;;
           ret {| job_id := gen_id; response_status := "processing" |})
          (fun e =>
             update_generation_failed w gen_id (JStr (str_of_exn e)) ;;;
             raise (HTTPException 500
                      ("Failed to submit TTS job: " +:+ str_of_exn e)))
    end.

(** * Vocabulary of the properties *)

(** The table writes among the logged calls. *)
Definition is_write (e : event) : bool :=
  match e with
  | Insert _ | UpdateCompleted _ _ _ _ | UpdateFailed _ _ _ => true
  | _ => false
  end.

Definition writes (evs : list event) : list event := List.filter is_write evs.

Definition is_status_query (e : event) : bool :=
  match e with StatusQuery _ => true | _ => false end.

(** The number of status queries among the logged calls. *)
Definition polls (evs : list event) : nat :=
  length (List.filter is_status_query evs).

(** What a logged call does to the table. *)
Definition apply_event (e : event) (t : gmap string Generation) : gmap string Generation :=
  match e with
  | Insert row => <[id row := row]> t
  | UpdateCompleted gen_id path url at_ => alter (set_completed path url at_) gen_id t
  | UpdateFailed gen_id err at_ => alter (set_failed err at_) gen_id t
  | _ => t
  end.

(** The table after a sequence of logged calls. *)
Definition replay (evs : list event) (t : gmap string Generation) : gmap string Generation :=
  fold_left (fun t e => apply_event e t) evs t.

(** A write that moves the record [gen_id] to a terminal status. *)
Definition terminal_write (gen_id : string) (e : event) : Prop :=
  match e with
  | UpdateCompleted g _ _ _ | UpdateFailed g _ _ => g = gen_id
  | _ => False
  end.

(** The terminal writes an attempt in world [w] can make, with where their
    arguments come from. *)
Definition write_of_attempt (w : world) (gen_id runpod_job_id : string)
    (e : event) : Prop :=
  match e with
  | UpdateCompleted g path url at_ =>
      g = gen_id /\ path = gen_id +:+ ".mp3" /\ at_ = now w /\
      exists signed,
        storage_create_signed_url w path 1209600 = Returns (JObj signed)
        /\ url = dict_get signed "signedURL" (JStr "")
  | UpdateFailed g err at_ =>
      g = gen_id /\ at_ = now w /\
      (err = JStr "No download URL received"
       \/ exists result,
            check_tts_status w runpod_job_id = Returns result
            /\ err = dict_get result "error" (JStr "Unknown error"))
  | _ => False
  end.

(** The write made when the attempts run out. *)
Definition timeout_write (env : nat -> world) (gen_id : string) : event :=
  UpdateFailed gen_id (JStr "Generation timed out") (now (env max_attempts)).

(** The status tests of the loop body: a status that takes neither branch. *)
Definition nonterminal (st : json) : bool :=
  negb (eq_str st "COMPLETED") && negb (eq_str st "FAILED" || eq_str st "ERROR").

(** The state with further calls logged and the table as it was. *)
Definition extend (s : state) (evs : list event) : state :=
  {| table := table s; trace := trace s ++ evs |}.

(** The calls of [k] attempts that only sleep and query the status. *)
Fixpoint idle_calls (runpod_job_id : string) (k : nat) : list event :=
  match k with
  | O => []
  | S k' => Sleep 5 :: StatusQuery runpod_job_id :: idle_calls runpod_job_id k'
  end.

(** The status a poll returns, if it returns. *)
Definition poll_status (w : world) (runpod_job_id : string) : option json :=
  match check_tts_status w runpod_job_id with
  | Returns result => result !! "status"
  | Raises _ => None
  end.

(** The poll returns a status that is none of COMPLETED, FAILED, ERROR. *)
Definition poll_nonterminal (w : world) (runpod_job_id : string) : bool :=
  match poll_status w runpod_job_id with
  | Some st => nonterminal st
  | None => false
  end.

(** The poll raises. *)
Definition poll_raises (w : world) (runpod_job_id : string) : bool :=
  match check_tts_status w runpod_job_id with
  | Returns _ => false
  | Raises _ => true
  end.

(** The closed status vocabulary the specification names. *)
Definition status_enumeration : list string :=
  ["QUEUED"; "RUNNING"; "COMPLETED"; "FAILED"; "ERROR"; "UNKNOWN"].

Fixpoint contains_asterisk (s : string) : bool :=
  match s with
  | EmptyString => false
  | String c rest => Ascii.eqb c "*"%char || contains_asterisk rest
  end.

(** [body[:limit]] *)
Definition truncated (limit : nat) (body : string) : string :=
  String.substring 0 limit body.

(** What a terminal write makes of the row it updates. *)
Definition row_after (e : event) (g : Generation) : Generation :=
  match e with
  | UpdateCompleted _ path url at_ => set_completed path url at_ g
  | UpdateFailed _ err at_ => set_failed err at_ g
  | _ => g
  end.

(** The three shapes of a record.  A record as created: *)
Definition processing_shape (g : Generation) : Prop :=
  status g = "processing" /\ storage_path g = JNull /\ file_url g = JNull.

(** A record completed by a run in [env]: the storage path is the id
    followed by ".mp3", and the file URL is what some attempt's signing
    call answered under ["signedURL"], the empty string if nothing. *)
Definition completed_shape (env : nat -> world) (gen_id : string)
    (g : Generation) : Prop :=
  status g = "completed"
  /\ storage_path g = JStr (gen_id +:+ ".mp3") /\ gen_id +:+ ".mp3" <> ""
  /\ exists j signed,
       (j < max_attempts)%nat
       /\ storage_create_signed_url (env j) (gen_id +:+ ".mp3") 1209600
            = Returns (JObj signed)
       /\ file_url g = dict_get signed "signedURL" (JStr "").

(** A record failed by a run in [env]: nothing is stored, and the error is
    one of the two fixed messages or the error value of some poll's result. *)
Definition failed_shape (env : nat -> world) (gen_id runpod_job_id : string)
    (g : Generation) : Prop :=
  status g = "failed" /\ storage_path g = JNull /\ file_url g = JNull
  /\ (error g = JStr "Generation timed out"
      \/ error g = JStr "No download URL received"
      \/ exists j result,
           (j < max_attempts)%nat
           /\ check_tts_status (env j) runpod_job_id = Returns result
           /\ error g = dict_get result "error" (JStr "Unknown error")).

(** ** Sample worlds *)

Definition sample_now : string := "2025-06-01T12:00:00+00:00".

Definition json_response (d : gmap string json) : response :=
  {| status_code := 200; text := ""; content := [];
     json_body := Returns (JObj d) |}.

Definition make_world (run_answer status_answer get_answer : outcome response)
    (upload_answer : outcome unit) (sign_answer : outcome json) : world :=
  {| post_run := fun _ => run_answer;
     post_status := fun _ => status_answer;
     http_get := fun _ => get_answer;
     storage_upload := fun _ _ => upload_answer;
     storage_create_signed_url := fun _ _ => sign_answer;
     generate_title_and_description := fun text => (text, text);
     uuid4 := "0b9f6c1e-7c1d-4c55-9a57-2f4f3a8f5d10";
     now := sample_now |}.

Definition unreachable {A} : outcome A := Raises (Exception "ConnectError").

(** A world that answers the status query with the given JSON object and
    nothing else. *)
Definition status_world (d : gmap string json) : world :=
  make_world unreachable (Returns (json_response d)) unreachable
    unreachable unreachable.

Definition offline_world : world :=
  make_world unreachable unreachable unreachable unreachable unreachable.

Definition running_world : world := status_world {[ "status" := JStr "RUNNING" ]}.

Definition in_progress_world : world :=
  status_world {[ "status" := JStr "IN_PROGRESS" ]}.

Definition completed_answer : gmap string json :=
  <["status" := JStr "COMPLETED"]>
    {[ "output" := JObj {[ "download_url" := JStr "https://cdn.example/a.mp3" ]} ]}.

Definition audio_response : response :=
  {| status_code := 200; text := ""; content := [Byte.x49; Byte.x44; Byte.x33];
     json_body := Raises (Exception "JSONDecodeError") |}.

Definition gone_response : response :=
  {| status_code := 404; text := "Not Found"; content := [];
     json_body := Raises (Exception "JSONDecodeError") |}.

(** Completed, the audio downloads and uploads, the URL is signed. *)
Definition completed_world : world :=
  make_world unreachable (Returns (json_response completed_answer))
    (Returns audio_response) (Returns tt)
    (Returns (JObj {[ "signedURL" := JStr "https://store.example/signed" ]})).

(** Completed, but the signing answer has no ["signedURL"]. *)
Definition unsigned_world : world :=
  make_world unreachable (Returns (json_response completed_answer))
    (Returns audio_response) (Returns tt) (Returns (JObj ∅)).

(** Completed, but the download link answers 404. *)
Definition expired_link_world : world :=
  make_world unreachable (Returns (json_response completed_answer))
    (Returns gone_response) (Returns tt)
    (Returns (JObj {[ "signedURL" := JStr "https://store.example/signed" ]})).

(** Completed, but the answer has no output at all. *)
Definition no_output_world : world :=
  status_world {[ "status" := JStr "COMPLETED" ]}.

Definition failed_world : world :=
  status_world (<["status" := JStr "FAILED"]> {[ "error" := JStr "CUDA out of memory" ]}).

Definition overloaded_response : response :=
  {| status_code := 500; text := "upstream connect error or disconnect";
     content := []; json_body := Raises (Exception "JSONDecodeError") |}.

Definition overloaded_world : world :=
  make_world (Returns overloaded_response) unreachable unreachable
    unreachable unreachable.

Definition accepting_world : world :=
  make_world (Returns (json_response {[ "id" := JStr "run-42" ]})) unreachable
    unreachable unreachable unreachable.

(** [k] attempts in world [first], every later one in world [later]. *)
Definition switch_after (k : nat) (first later : world) : nat -> world :=
  fun i => if (i <? k)%nat then first else later.

Definition sample_generation : Generation :=
  {| id := "gen-1"; title := JStr "A title"; description := JStr "A description";
     text_content := "Hello there"; status := "processing";
     created_at := sample_now; storage_path := JNull; file_url := JNull;
     error := JNull; completed_at := JNull |}.

Definition sample_state : state :=
  {| table := {[ "gen-1" := sample_generation ]}; trace := [] |}.

(** * Further code of the service

    Reads and deletions act on the table only; the log keeps recording the
    calls of the generation lifecycle and has no entry for them. *)

(** ** database.py: reading and deleting *)

(** [supabase.table(TABLE_NAME).select("*").eq("id", gen_id).execute()] *)
Definition select_execute (gen_id : string) : M (list Generation) :=
  fun s =>
    (Returns (match table s !! gen_id with Some row => [row] | None => [] end), s).

Definition get_generation (gen_id : string) : M (option Generation) :=
  data <- select_execute gen_id ;;
  ret (first_or_none data).

(** [supabase.table(TABLE_NAME).delete().eq("id", gen_id).execute()] *)
Definition delete_execute (gen_id : string) : M unit :=
  fun s => (Returns tt, {| table := delete gen_id (table s); trace := trace s |}).

(** [storage_remove] is [supabase.storage.from_(BUCKET_NAME).remove]. *)
Definition delete_generation (storage_remove : list json -> outcome unit)
    (gen_id : string) : M bool :=
  gen <- get_generation gen_id ;;
  match gen with
  | None => ret false
  | Some gen =>
      (if truthy (storage_path gen) then
         try_except (lift (storage_remove [storage_path gen])) (fun _ => ret tt)
       else ret tt) ;;;
      delete_execute gen_id ;;;
      ret true
  end.

(** ** main.py: the other endpoints *)

Record StatusResponse := {
  status_field : string;
  play_url : json;
  mp3_url : json;
  error_field : json;
}.

(** GET /api/status/{job_id}.  A row read from the table always has its
    status column, so the default of [gen.get("status", "unknown")] is not
    taken. *)
Definition api_status (job_id : string) : M StatusResponse :=
  gen <- get_generation job_id ;;
  match gen with
  | None => raise (HTTPException 404 "Generation not found")
  | Some gen =>
      let status := status gen in
      if String.eqb status "completed" then
        ret {| status_field := status;
               play_url := JStr ("/play/" +:+ job_id);
               mp3_url := file_url gen;
               error_field := JNull |}
      else if String.eqb status "failed" then
        ret {| status_field := status; play_url := JNull; mp3_url := JNull;
               error_field := error gen |}
      else
        ret {| status_field := status; play_url := JNull; mp3_url := JNull;
               error_field := JNull |}
  end.

(** [gen["file_url"] = fresh_url] on the dict that was read. *)
Definition with_file_url (url : json) (g : Generation) : Generation :=
  {| id := id g;
     title := title g;
     description := description g;
     text_content := text_content g;
     status := status g;
     created_at := created_at g;
     storage_path := storage_path g;
     file_url := url;
     error := error g;
     completed_at := completed_at g |}.

(** GET /play/{gen_id}, up to the record handed to [get_player_page]; the
    markup built from it is not modelled.  [storage_path] is a text column:
    what is read back is a string or [None]. *)
Definition play (w : world) (gen_id : string) : M Generation :=
  gen <- get_generation gen_id ;;
  match gen with
  | None => raise (HTTPException 404 "Not found")
  | Some gen =>
      if truthy (storage_path gen) && String.eqb (status gen) "completed" then
        match storage_path gen with
        | JStr path =>
            fresh_url <- refresh_signed_url w path ;;
            if truthy fresh_url then ret (with_file_url fresh_url gen)
            else ret gen
        | _ => ret gen
        end
      else ret gen
  end.

(** [pin == PLAYLIST_PIN]; a missing cookie or query parameter is [None]. *)
Definition check_pin (PLAYLIST_PIN : string) (pin : json) : bool :=
  eq_str pin PLAYLIST_PIN.

Record RedirectResponse := {
  redirect_url : string;
  redirect_status_code : Z;
}.

Definition redirect_home : RedirectResponse :=
  {| redirect_url := "/"; redirect_status_code := 303 |}.

(** POST /generate, the form of the playlist page. *)
Definition web_generate (PLAYLIST_PIN : string) (w : world) (cookie_pin : json)
    (text : string) : M RedirectResponse :=
  if negb (check_pin PLAYLIST_PIN cookie_pin) then ret redirect_home
  else
    let text := strip text in
    if negb (truthy (JStr text)) || (MAX_TEXT_LENGTH <? len text) then
      ret redirect_home
    else
      let '(title, description) := generate_title_and_description w text in
      gen <- create_generation w text (JStr title) (JStr description) ;;
      match gen with
      | None => ret redirect_home
      | Some gen =>
          let gen_id := id gen in
          try_except
            (runpod_job_id <- lift (submit_tts_job w text JNull) ;;
             emit (AddTask gen_id runpod_job_id))
            (fun e =>
               update_generation_failed w gen_id (JStr (str_of_exn e)) ;;;
               ret tt) ;;;
          ret redirect_home
      end.

(** POST /delete/{gen_id} *)
Definition web_delete (PLAYLIST_PIN : string)
    (storage_remove : list json -> outcome unit) (cookie_pin : json)
    (gen_id : string) : M RedirectResponse :=
  if negb (check_pin PLAYLIST_PIN cookie_pin) then ret redirect_home
  else
    delete_generation storage_remove gen_id ;;;
    ret redirect_home.

(** ** groq_service.py *)

Module GroqService.

Definition newline : ascii := ascii_of_nat 10.

(** [s[:n]] *)
Definition take (n : nat) (s : string) : string := String.substring 0 n s.

(** [s[n:]] *)
Fixpoint drop (n : nat) (s : string) : string :=
  match n, s with
  | O, _ => s
  | S n', String _ rest => drop n' rest
  | S _, EmptyString => EmptyString
  end.

(** [s.split(sep)] for a one-character separator: the pieces between the
    separators, at least one. *)
Fixpoint split (sep : ascii) (s : string) : list string :=
  match s with
  | EmptyString => [EmptyString]
  | String c rest =>
      if Ascii.eqb c sep then EmptyString :: split sep rest
      else match split sep rest with
           | piece :: pieces => String c piece :: pieces
           | [] => [String c EmptyString]
           end
  end.

(** [c.upper()] as code points: on the code points below 256, the letters
    a-z and the accented letters 224-254 (but not the division sign 247)
    move down by 32, the micro sign becomes GREEK CAPITAL MU, the sharp s
    becomes "SS", and y with diaeresis becomes its capital at 376. *)
Definition upper_char (c : ascii) : list N :=
  let n := N_of_ascii c in
  (if (97 <=? n) && (n <=? 122) then [n - 32]
   else if n =? 181 then [924]
   else if n =? 223 then [83; 83]
   else if (224 <=? n) && (n <=? 254) && negb (n =? 247) then [n - 32]
   else if n =? 255 then [376]
   else [n])%N.

(** [s.upper()] *)
Fixpoint upper (s : string) : list N :=
  match s with
  | EmptyString => []
  | String c rest => upper_char c ++ upper rest
  end.

Fixpoint code_points (s : string) : list N :=
  match s with
  | EmptyString => []
  | String c rest => N_of_ascii c :: code_points rest
  end.

Fixpoint starts_with (l prefix : list N) : bool :=
  match prefix, l with
  | [], _ => true
  | p :: prefix', x :: l' => (x =? p)%N && starts_with l' prefix'
  | _ :: _, [] => false
  end.

(** [line.upper().startswith(prefix)] *)
Definition upper_startswith (line prefix : string) : bool :=
  starts_with (upper line) (code_points prefix).

(** [text[:keep] + "..." if len(text) > limit else text] *)
Definition ellipsize (keep limit : nat) (text : string) : string :=
  if (limit <? String.length text)%nat then take keep text +:+ "..." else text.

(** One pass of the loop of [_parse_response] over a line. *)
Definition parse_line (found : string * string) (line : string) : string * string :=
  let line := strip line in
  if upper_startswith line "TITLE:" then (strip (drop 6 line), snd found)
  else if upper_startswith line "DESCRIPTION:" then (fst found, strip (drop 12 line))
  else found.

Definition _parse_response (content original_text : string) : string * string :=
  let '(title, description) :=
    fold_left parse_line (split newline (strip content)) ("", "") in
  let title :=
    if negb (truthy (JStr title)) then ellipsize 57 60 original_text else title in
  let description :=
    if negb (truthy (JStr description)) then ellipsize 147 150 original_text
    else description in
  (take 60 title, take 150 description).

Definition _fallback_title_description (text : string) : string * string :=
  let first_line := strip (hd EmptyString (split newline text)) in
  let title := ellipsize 57 60 first_line in
  let description := ellipsize 147 150 text in
  (title, description).

Definition prompt (text_preview : string) : string :=
  let nl := String newline EmptyString in
  "Based on the following text, generate:" +:+ nl
  +:+ "1. A short, catchy title (max 60 characters)" +:+ nl
  +:+ "2. A brief description (max 150 characters)" +:+ nl
  +:+ nl
  +:+ "Text:" +:+ nl
  +:+ text_preview +:+ nl
  +:+ nl
  +:+ "Respond in exactly this format (no markdown, no quotes):" +:+ nl
  +:+ "TITLE: [your title here]" +:+ nl
  +:+ "DESCRIPTION: [your description here]".

(** [_call_groq] is the remote completion call: it returns the text of the
    answer or raises. *)
Definition generate_title_and_description (_call_groq : string -> outcome string)
    (text : string) : string * string :=
  let text_preview := ellipsize 1000 1000 text in
  match _call_groq (prompt text_preview) with
  | Returns content => _parse_response content text
  | Raises _ => _fallback_title_description text
  end.

End GroqService.

(** ** audio_convert.py *)

(** What [process.communicate] hands back once ffmpeg has ended; [stderr]
    is the text [stderr.decode(errors="replace")]. *)
Record process_result := {
  returncode : Z;
  stdout : list Byte.byte;
  stderr : string;
}.

(** The end of both converters, after the process has been run. *)
Definition conversion_result (process : process_result) : outcome (list Byte.byte) :=
  if negb (returncode process =? 0) then
    let error_msg := stderr process in
    Raises (Exception ("Audio conversion failed: " +:+ GroqService.take 200 error_msg))
  else
    Returns (stdout process).

(** [ffmpeg] runs the program with the given arguments on the given input. *)
Definition convert_mp3_to_ogg_opus
    (ffmpeg : list string -> list Byte.byte -> outcome process_result)
    (mp3_bytes : list Byte.byte) : outcome (list Byte.byte) :=
  process <-? ffmpeg ["-i"; "pipe:0"; "-c:a"; "libopus"; "-b:a"; "128k"; "-vn";
                      "-f"; "ogg"; "pipe:1"] mp3_bytes;
  conversion_result process.

Definition convert_wav_to_mp3
    (ffmpeg : list string -> list Byte.byte -> outcome process_result)
    (wav_bytes : list Byte.byte) : outcome (list Byte.byte) :=
  process <-? ffmpeg ["-i"; "pipe:0"; "-codec:a"; "libmp3lame"; "-b:a"; "192k";
                      "-f"; "mp3"; "pipe:1"] wav_bytes;
  conversion_result process.

(** ** local_tts.py *)

(** [_kokoro_available] is the module's global, [None] until the first
    call; [path_exists] is [os.path.exists]. *)
Definition is_local_tts_available (path_exists : string -> bool)
    (KOKORO_MODEL_PATH KOKORO_VOICES_PATH : string)
    (_kokoro_available : option bool) : bool * option bool :=
  match _kokoro_available with
  | None =>
      let available :=
        path_exists KOKORO_MODEL_PATH && path_exists KOKORO_VOICES_PATH in
      (available, Some available)
  | Some available => (available, Some available)
  end.

Definition is_object (v : json) : bool :=
  match v with JObj _ => true | _ => false end.

(** ** Vocabulary of the further properties *)

(** The seconds slept among the logged calls. *)
Fixpoint seconds_slept (evs : list event) : Z :=
  match evs with
  | [] => 0
  | Sleep seconds :: rest => seconds + seconds_slept rest
  | _ :: rest => seconds_slept rest
  end.

Definition is_upload (e : event) : bool :=
  match e with Upload _ _ => true | _ => false end.

Definition is_add_task (e : event) : bool :=
  match e with AddTask _ _ => true | _ => false end.

(** The character [c] occurs in [s]. *)
Fixpoint contains_char (c : ascii) (s : string) : bool :=
  match s with
  | EmptyString => false
  | String x rest => Ascii.eqb x c || contains_char c rest
  end.

(** An answer in the format the prompt asks for. *)
Definition formatted_answer (title description : string) : string :=
  "TITLE: " +:+ title +:+ String GroqService.newline ("DESCRIPTION: " +:+ description).

(** A string to show as it is: not empty, on one line, without white space
    at either end. *)
Definition trimmed_line (s : string) : bool :=
  negb (String.eqb s "") && negb (contains_char GroqService.newline s)
  && String.eqb (lstrip s) s && String.eqb (rstrip s) s.

(** A storage whose [remove] always raises. *)
Definition remove_raises : list json -> outcome unit :=
  fun _ => Raises (Exception "StorageException").

Definition remove_ok : list json -> outcome unit := fun _ => Returns tt.

(** Completed with an output that is [null]. *)
Definition null_output_world : world :=
  status_world (<["status" := JStr "COMPLETED"]> {[ "output" := JNull ]}).

(** The submission is accepted with status 200 and an answer without id. *)
Definition no_id_world : world :=
  make_world (Returns (json_response ∅)) unreachable unreachable
    unreachable unreachable.

Definition completed_generation : Generation :=
  set_completed "gen-1.mp3" (JStr "https://store.example/old") sample_now
    sample_generation.

Definition completed_state : state :=
  {| table := {[ "gen-1" := completed_generation ]}; trace := [] |}.

(** ** Submissions that are refused *)

(** A body of [n] characters. *)
Fixpoint string_of_length (n : nat) : string :=
  match n with
  | O => EmptyString
  | S n' => String "x"%char (string_of_length n')
  end.

(** The submission is answered 500 with the given body. *)
Definition refusing_world (body : string) : world :=
  make_world
    (Returns {| status_code := 500; text := body; content := [];
                json_body := Raises (Exception "JSONDecodeError") |})
    unreachable unreachable unreachable unreachable.

Definition double_quote : string := String (ascii_of_nat 34) EmptyString.

(** The submission is answered 201 Created with a JSON object that carries
    the job id. *)
Definition created_response : response :=
  {| status_code := 201;
     text := "{" +:+ double_quote +:+ "id" +:+ double_quote +:+ ": "
             +:+ double_quote +:+ "run-42" +:+ double_quote +:+ "}";
     content := [];
     json_body := Returns (JObj {[ "id" := JStr "run-42" ]}) |}.

Definition created_world : world :=
  make_world (Returns created_response) unreachable unreachable
    unreachable unreachable.

(** The error message of a refused submission carries the response body cut
    at [limit] characters. *)
Definition truncates_error_body_at (limit : nat) : Prop :=
  forall (w : world) (text : string) (voice : json) (resp : response),
    post_run w (submit_payload text voice) = Returns resp ->
    status_code resp <> 200 ->
    submit_tts_job w text voice =
      Raises (Exception ("RunPod API failed: " +:+ pretty (status_code resp)
                         +:+ " - " +:+ truncated limit (response_text resp))).

(** * Lemmas *)

Ltac unfold_M :=
  unfold bind, try_except, emit, call, lift, ret, raise, update_execute, extend.

Lemma writes_app (a b : list event) : writes (a ++ b) = writes a ++ writes b.
Proof. unfold writes. apply List.filter_app. Qed.

Lemma polls_app (a b : list event) : polls (a ++ b) = (polls a + polls b)%nat.
Proof. unfold polls. rewrite List.filter_app. apply length_app. Qed.

Lemma replay_app (a b : list event) t : replay (a ++ b) t = replay b (replay a t).
Proof. unfold replay. apply fold_left_app. Qed.

Lemma replay_no_writes (evs : list event) t : writes evs = [] -> replay evs t = t.
Proof.
  revert t. induction evs as [|e evs IH]; intros t H; [done|].
  unfold writes in H. simpl in H. destruct (is_write e) eqn:He; [done|].
  change (replay evs (apply_event e t) = t). rewrite (IH _ H).
  by destruct e.
Qed.

Lemma writes_idle_calls job k : writes (idle_calls job k) = [].
Proof. induction k; [done|]. exact IHk. Qed.

Lemma polls_idle_calls job k : polls (idle_calls job k) = k.
Proof. induction k; [done|]. unfold polls in *. simpl. by rewrite IHk. Qed.

Lemma eq_str_true (v : json) (lit : string) : eq_str v lit = true -> v = JStr lit.
Proof.
  destruct v; try done. simpl. intros H. by apply String.eqb_eq in H as ->.
Qed.

Lemma failed_is_not_completed (st : json) :
  eq_str st "FAILED" || eq_str st "ERROR" = true -> eq_str st "COMPLETED" = false.
Proof.
  intros H. apply orb_true_iff in H as [H|H]; apply eq_str_true in H as ->; done.
Qed.

(** The result of [check_tts_status] always carries the backend's status
    under ["status"]. *)
Lemma check_tts_status_result (w : world) (run_id : string) (result : gmap string json) :
  check_tts_status w run_id = Returns result ->
  exists resp d,
    post_status w run_id = Returns resp /\ json_body resp = Returns (JObj d)
    /\ result !! "status" = Some (dict_get d "status" (JStr "UNKNOWN")).
Proof.
  unfold check_tts_status. intros H.
  destruct (post_status w run_id) as [resp|]; [simpl in H|done].
  destruct (json_body resp) as [data|] eqn:Hj; [simpl in H|done].
  destruct data as [| | | | |d]; try done. simpl in H.
  exists resp, d. split; [done|]. split; [done|].
  set (st := dict_get d "status" (JStr "UNKNOWN")) in *.
  destruct (eq_str st "COMPLETED").
  - destruct (get (dict_get d "output" (JObj ∅)) "download_url" JNull); [|done].
    simpl in H. injection H as <-. by rewrite lookup_insert_ne, lookup_singleton_eq.
  - destruct (eq_str st "FAILED" || eq_str st "ERROR"); simpl in H; injection H as <-.
    + by rewrite lookup_insert_ne, lookup_singleton_eq.
    + by rewrite lookup_singleton_eq.
Qed.

Section Attempt.
Variables (w : world) (gen_id runpod_job_id : string).

Lemma attempt_raises (s : state) (e : exn) :
  check_tts_status w runpod_job_id = Raises e ->
  attempt w gen_id runpod_job_id s =
    (Returns NextAttempt, extend s [Sleep 5; StatusQuery runpod_job_id]).
Proof.
  intros H. unfold attempt, attempt_try. unfold_M. simpl. rewrite H. simpl.
  by rewrite <- app_assoc.
Qed.

Lemma attempt_nonterminal (s : state) (result : gmap string json) (st : json) :
  check_tts_status w runpod_job_id = Returns result ->
  result !! "status" = Some st ->
  nonterminal st = true ->
  attempt w gen_id runpod_job_id s =
    (Returns NextAttempt, extend s [Sleep 5; StatusQuery runpod_job_id]).
Proof.
  intros H Hst Hn. unfold nonterminal in Hn.
  apply andb_true_iff in Hn as [H1 H2].
  apply negb_true_iff in H1, H2.
  unfold attempt, attempt_try, index. unfold_M. simpl. rewrite H, Hst. simpl.
  rewrite H1, H2. by rewrite <- app_assoc.
Qed.

Lemma attempt_failed (s : state) (result : gmap string json) (st : json) :
  check_tts_status w runpod_job_id = Returns result ->
  result !! "status" = Some st ->
  eq_str st "FAILED" || eq_str st "ERROR" = true ->
  let err := dict_get result "error" (JStr "Unknown error") in
  attempt w gen_id runpod_job_id s =
    (Returns Returned,
     {| table := alter (set_failed err (now w)) gen_id (table s);
        trace := trace s ++ [Sleep 5; StatusQuery runpod_job_id;
                             UpdateFailed gen_id err (now w)] |}).
Proof.
  intros H Hst Hf err. pose proof (failed_is_not_completed _ Hf) as Hc.
  unfold attempt, attempt_try, update_generation_failed, index. unfold_M. simpl.
  rewrite H, Hst. simpl. rewrite Hc, Hf. simpl.
  by rewrite <- !app_assoc.
Qed.

Lemma attempt_no_download_url (s : state) (result : gmap string json) :
  check_tts_status w runpod_job_id = Returns result ->
  result !! "status" = Some (JStr "COMPLETED") ->
  truthy (dict_get result "download_url" JNull) = false ->
  let err := JStr "No download URL received" in
  attempt w gen_id runpod_job_id s =
    (Returns Returned,
     {| table := alter (set_failed err (now w)) gen_id (table s);
        trace := trace s ++ [Sleep 5; StatusQuery runpod_job_id;
                             UpdateFailed gen_id err (now w)] |}).
Proof.
  intros H Hst Hu err.
  unfold attempt, attempt_try, update_generation_failed, index. unfold_M. simpl.
  rewrite H, Hst. simpl. rewrite Hu. simpl.
  by rewrite <- !app_assoc.
Qed.

Lemma attempt_completed (s : state) (result : gmap string json)
    (audio : list Byte.byte) (signed : gmap string json) :
  check_tts_status w runpod_job_id = Returns result ->
  result !! "status" = Some (JStr "COMPLETED") ->
  let url := dict_get result "download_url" JNull in
  let path := gen_id +:+ ".mp3" in
  let signed_url := dict_get signed "signedURL" (JStr "") in
  truthy url = true ->
  download_audio w url = Returns audio ->
  storage_upload w path audio = Returns tt ->
  storage_create_signed_url w path 1209600 = Returns (JObj signed) ->
  attempt w gen_id runpod_job_id s =
    (Returns Returned,
     {| table := alter (set_completed path signed_url (now w)) gen_id (table s);
        trace := trace s ++ [Sleep 5; StatusQuery runpod_job_id; Download url;
                             Upload path audio; CreateSignedUrl path 1209600;
                             UpdateCompleted gen_id path signed_url (now w)] |}).
Proof.
  intros H Hst url path signed_url Hu Hd Hup Hsg.
  unfold attempt, attempt_try, update_generation_completed,
    upload_audio_to_storage, index.
  unfold_M. simpl. rewrite H, Hst. simpl. fold url. rewrite Hu, Hd. simpl.
  fold path. rewrite Hup, Hsg. simpl.
  by rewrite <- !app_assoc.
Qed.

(** Whatever the world answers, an attempt returns normally, queries the
    status once, and either writes nothing or ends with one terminal
    write. *)
Lemma attempt_shape (s : state) :
  exists (f : flow) (evs : list event),
    attempt w gen_id runpod_job_id s =
      (Returns f, {| table := replay evs (table s); trace := trace s ++ evs |})
    /\ polls evs = 1%nat
    /\ match f with
       | NextAttempt => writes evs = []
       | Returned => exists pre wr, evs = pre ++ [wr] /\ writes pre = []
                                    /\ write_of_attempt w gen_id runpod_job_id wr
       end.
Proof.
  unfold attempt, attempt_try, update_generation_failed,
    update_generation_completed, upload_audio_to_storage, index.
  unfold_M. simpl.
  destruct (check_tts_status w runpod_job_id) as [result|e] eqn:Hc; simpl.
  2: { exists NextAttempt, [Sleep 5; StatusQuery runpod_job_id].
       by rewrite <- !app_assoc. }
  destruct (result !! "status") as [st|]; simpl.
  2: { exists NextAttempt, [Sleep 5; StatusQuery runpod_job_id].
       by rewrite <- !app_assoc. }
  destruct (eq_str st "COMPLETED").
  - destruct (truthy (dict_get result "download_url" JNull)); simpl.
    + set (url := dict_get result "download_url" JNull).
      destruct (download_audio w url) as [audio|e]; simpl.
      2: { exists NextAttempt, [Sleep 5; StatusQuery runpod_job_id; Download url].
           by rewrite <- !app_assoc. }
      set (path := gen_id +:+ ".mp3").
      destruct (storage_upload w path audio) as [[]|e]; simpl.
      2: { exists NextAttempt,
             [Sleep 5; StatusQuery runpod_job_id; Download url; Upload path audio].
           by rewrite <- !app_assoc. }
      destruct (storage_create_signed_url w path 1209600) as [signed|e] eqn:Hs;
        simpl.
      2: { exists NextAttempt,
             [Sleep 5; StatusQuery runpod_job_id; Download url; Upload path audio;
              CreateSignedUrl path 1209600].
           by rewrite <- !app_assoc. }
      destruct (get signed "signedURL" (JStr "")) as [url'|e] eqn:Hg; simpl.
      2: { exists NextAttempt,
             [Sleep 5; StatusQuery runpod_job_id; Download url; Upload path audio;
              CreateSignedUrl path 1209600].
           by rewrite <- !app_assoc. }
      exists Returned,
        [Sleep 5; StatusQuery runpod_job_id; Download url; Upload path audio;
         CreateSignedUrl path 1209600; UpdateCompleted gen_id path url' (now w)].
      rewrite <- !app_assoc. split; [done|]. split; [done|].
      exists [Sleep 5; StatusQuery runpod_job_id; Download url; Upload path audio;
              CreateSignedUrl path 1209600], (UpdateCompleted gen_id path url' (now w)).
      split; [done|]. split; [done|]. simpl. split; [done|]. split; [done|].
      split; [done|]. destruct signed as [| | | | |d]; try done.
      exists d. simpl in Hg. by injection Hg as <-.
    + exists Returned,
        [Sleep 5; StatusQuery runpod_job_id;
         UpdateFailed gen_id (JStr "No download URL received") (now w)].
      rewrite <- !app_assoc. split; [done|]. split; [done|].
      exists [Sleep 5; StatusQuery runpod_job_id],
             (UpdateFailed gen_id (JStr "No download URL received") (now w)).
      simpl. auto 10.
  - destruct (eq_str st "FAILED" || eq_str st "ERROR"); simpl.
    + set (err := dict_get result "error" (JStr "Unknown error")).
      exists Returned,
        [Sleep 5; StatusQuery runpod_job_id; UpdateFailed gen_id err (now w)].
      rewrite <- !app_assoc. split; [done|]. split; [done|].
      exists [Sleep 5; StatusQuery runpod_job_id], (UpdateFailed gen_id err (now w)).
      simpl. split; [done|]. split; [done|]. split; [done|]. split; [done|].
      right. by exists result.
    + exists NextAttempt, [Sleep 5; StatusQuery runpod_job_id].
      by rewrite <- !app_assoc.
Qed.
End Attempt.

Lemma write_of_attempt_terminal w gen_id job wr :
  write_of_attempt w gen_id job wr -> terminal_write gen_id wr.
Proof. destruct wr; simpl; tauto. Qed.

Lemma terminal_write_is_write gen_id wr : terminal_write gen_id wr -> writes [wr] = [wr].
Proof. by destruct wr. Qed.

Lemma terminal_write_no_poll gen_id wr : terminal_write gen_id wr -> polls [wr] = 0%nat.
Proof. by destruct wr. Qed.

Section Loop.
Variables (env : nat -> world) (gen_id runpod_job_id : string).

Lemma poll_loop_split (a b : nat) : forall (i : nat) (s : state),
  poll_loop env gen_id runpod_job_id (a + b) i s =
    match poll_loop env gen_id runpod_job_id a i s with
    | (Returns NextAttempt, s') => poll_loop env gen_id runpod_job_id b (i + a) s'
    | r => r
    end.
Proof.
  induction a as [|a IH]; intros i s; simpl.
  - unfold ret. by rewrite Nat.add_0_r.
  - unfold bind.
    destruct (attempt (env i) gen_id runpod_job_id s) as [[[]|e] s']; simpl.
    + rewrite IH. by replace (S i + a)%nat with (i + S a)%nat by lia.
    + done.
    + done.
Qed.

(** The loop returns normally; it either runs all its attempts without a
    write, or stops right after the one terminal write of some attempt. *)
Lemma poll_loop_shape (n : nat) : forall (i : nat) (s : state),
  exists (f : flow) (evs : list event),
    poll_loop env gen_id runpod_job_id n i s =
      (Returns f, {| table := replay evs (table s); trace := trace s ++ evs |})
    /\ match f with
       | NextAttempt => writes evs = [] /\ polls evs = n
       | Returned =>
           exists pre wr j,
             evs = pre ++ [wr] /\ writes pre = []
             /\ write_of_attempt (env j) gen_id runpod_job_id wr
             /\ (i <= j < i + n)%nat /\ polls pre = (j - i + 1)%nat
       end.
Proof.
  induction n as [|n IH]; intros i s; simpl.
  - exists NextAttempt, []. unfold ret. rewrite app_nil_r. by destruct s.
  - unfold bind.
    destruct (attempt_shape (env i) gen_id runpod_job_id s)
      as (f & evs & -> & Hp & Hf).
    destruct f.
    + destruct (IH (S i) {| table := replay evs (table s); trace := trace s ++ evs |})
        as (f' & evs' & -> & Hf').
      exists f', (evs ++ evs'). simpl. rewrite replay_app, app_assoc.
      split; [done|]. destruct f'.
      * destruct Hf' as [Hw Hn]. rewrite writes_app, polls_app, Hf, Hw, Hp, Hn.
        done.
      * destruct Hf' as (pre & wr & j & -> & Hw & Ht & Hj & Hn).
        exists (evs ++ pre), wr, j.
        rewrite app_assoc, writes_app, polls_app, Hf, Hw, Hp, Hn.
        repeat split; [done|lia|lia|lia].
    + exists Returned, evs. split; [done|].
      destruct Hf as (pre & wr & -> & Hw & Ht).
      exists pre, wr, i. rewrite polls_app in Hp.
      rewrite (terminal_write_no_poll gen_id wr) in Hp
        by (by eapply write_of_attempt_terminal).
      repeat split; [done|done|lia|lia|lia].
Qed.

(** Attempts whose poll raises or returns a non-terminal status leave the
    table alone and go on. *)
Lemma poll_loop_idle (k : nat) : forall (i : nat) (s : state),
  (forall j, (j < k)%nat ->
     poll_raises (env (i + j)%nat) runpod_job_id
     || poll_nonterminal (env (i + j)%nat) runpod_job_id = true) ->
  poll_loop env gen_id runpod_job_id k i s =
    (Returns NextAttempt, extend s (idle_calls runpod_job_id k)).
Proof.
  induction k as [|k IH]; intros i s H; simpl.
  - unfold ret, extend. rewrite app_nil_r. by destruct s.
  - unfold bind.
    assert (Ha : attempt (env i) gen_id runpod_job_id s =
              (Returns NextAttempt, extend s [Sleep 5; StatusQuery runpod_job_id])).
    { specialize (H 0%nat ltac:(lia)). rewrite Nat.add_0_r in H.
      unfold poll_raises, poll_nonterminal, poll_status in H.
      destruct (check_tts_status (env i) runpod_job_id) as [result|e] eqn:Hc.
      - simpl in H. destruct (result !! "status") as [st|] eqn:Hst; [|done].
        by eapply attempt_nonterminal.
      - by eapply attempt_raises. }
    rewrite Ha, IH.
    + unfold extend. simpl. by rewrite <- app_assoc.
    + intros j Hj. specialize (H (S j) ltac:(lia)).
      by replace (S i + j)%nat with (i + S j)%nat by lia.
Qed.

(** A run whose first [k] attempts go on and whose attempt [k] returns
    ends with what attempt [k] did. *)
Lemma process_tts_job_stops_at (k : nat) (s sk s' : state) :
  (k < max_attempts)%nat ->
  poll_loop env gen_id runpod_job_id k 0 s = (Returns NextAttempt, sk) ->
  attempt (env k) gen_id runpod_job_id sk = (Returns Returned, s') ->
  process_tts_job env gen_id runpod_job_id s = (Returns tt, s').
Proof.
  intros Hk Hpre Hat. unfold process_tts_job, bind.
  replace max_attempts with (k + S (max_attempts - S k))%nat by lia.
  rewrite poll_loop_split, Hpre. simpl. unfold bind. by rewrite Hat.
Qed.

(** Every run returns normally and logs exactly one table write, the
    last call it makes: the terminal write of some attempt or the
    time-out write. *)
Lemma process_tts_job_shape (s : state) :
  exists (pre : list event) (wr : event),
    process_tts_job env gen_id runpod_job_id s =
      (Returns tt, {| table := apply_event wr (table s);
                      trace := trace s ++ pre ++ [wr] |})
    /\ writes pre = []
    /\ (1 <= polls pre <= max_attempts)%nat
    /\ ((exists j, (j < max_attempts)%nat
                   /\ write_of_attempt (env j) gen_id runpod_job_id wr)
        \/ (wr = timeout_write env gen_id /\ polls pre = max_attempts)).
Proof.
  unfold process_tts_job, bind.
  destruct (poll_loop_shape max_attempts 0 s) as (f & evs & -> & Hf).
  destruct f.
  - destruct Hf as [Hw Hn].
    exists evs, (timeout_write env gen_id).
    unfold update_generation_failed, timeout_write. unfold_M. simpl.
    rewrite (replay_no_writes _ _ Hw), <- app_assoc, Hn.
    split; [done|]. split; [done|]. split; [unfold max_attempts; lia|].
    by right.
  - destruct Hf as (pre & wr & j & -> & Hw & Ht & Hj & Hn).
    exists pre, wr. unfold ret.
    rewrite replay_app, (replay_no_writes _ _ Hw).
    split; [done|]. split; [done|]. split; [lia|].
    left. exists j. split; [lia|done].
Qed.
End Loop.

(** * The backend client *)

Lemma re_sub_char_filter (pat : ascii) (s : string) :
  list_ascii_of_string (re_sub_char pat s) =
    List.filter (fun c => negb (Ascii.eqb c pat)) (list_ascii_of_string s).
Proof.
  induction s as [|c s IH]; [done|]. simpl.
  destruct (Ascii.eqb c pat); simpl; by rewrite IH.
Qed.

Lemma re_sub_char_absent (pat : ascii) (s : string) :
  List.existsb (Ascii.eqb pat) (list_ascii_of_string (re_sub_char pat s)) = false.
Proof.
  induction s as [|c s IH]; [done|]. simpl.
  destruct (Ascii.eqb c pat) eqn:E; [done|]. simpl.
  rewrite Ascii.eqb_sym, E. exact IH.
Qed.

Lemma contains_asterisk_existsb (s : string) :
  contains_asterisk s = List.existsb (Ascii.eqb "*"%char) (list_ascii_of_string s).
Proof.
  induction s as [|c s IH]; [done|]. simpl. by rewrite IH, Ascii.eqb_sym.
Qed.

Lemma clean_text_for_tts_plain (s : string) :
  contains_asterisk s = false -> clean_text_for_tts s = s.
Proof.
  unfold clean_text_for_tts. induction s as [|c s IH]; [done|]. simpl.
  intros H. apply orb_false_iff in H as [-> H]. by rewrite IH.
Qed.

(** C10: [clean_text_for_tts] returns its input with every asterisk removed
    and every other character kept, in order: the characters of the result
    are those of the input that are not ['*'], so no asterisk is left.
    Hence cleaning twice is cleaning once, and a string [plain] without an
    asterisk comes back unchanged. *)
Theorem clean_text_for_tts_removes_asterisks (text plain : string)
    (Hplain : contains_asterisk plain = false) :
  list_ascii_of_string (clean_text_for_tts text) =
    List.filter (fun c => negb (Ascii.eqb c "*"%char)) (list_ascii_of_string text)
  /\ contains_asterisk (clean_text_for_tts text) = false
  /\ clean_text_for_tts (clean_text_for_tts text) = clean_text_for_tts text
  /\ clean_text_for_tts plain = plain.
Proof.
  assert (Hnone : contains_asterisk (clean_text_for_tts text) = false).
  { rewrite contains_asterisk_existsb. apply re_sub_char_absent. }
  split; [apply re_sub_char_filter|]. split; [exact Hnone|].
  split; by apply clean_text_for_tts_plain.
Qed.

Lemma clean_text_for_tts_removes_asterisks_witness :
  contains_asterisk "Bold and italic" = false
  /\ clean_text_for_tts "**Bold** and *italic*" = "Bold and italic"
  /\ clean_text_for_tts "Bold and italic" = "Bold and italic".
Proof.
  split; [reflexivity|].
  destruct (clean_text_for_tts_removes_asterisks
              "**Bold** and *italic*" "Bold and italic" eq_refl)
    as (_ & _ & _ & Hplain).
  split; [reflexivity | exact Hplain].
Defined.

(** C2, counterexample: the backend answers IN_PROGRESS, and the result
    of [check_tts_status] carries IN_PROGRESS, which is not in the
    enumeration. *)
Lemma check_tts_status_reports_raw_status :
  poll_status in_progress_world "run-42" = Some (JStr "IN_PROGRESS")
  /\ ~ In "IN_PROGRESS" status_enumeration.
Proof.
  split; [reflexivity|].
  unfold status_enumeration. simpl. intros H.
  repeat (destruct H as [H|H]; [discriminate H|]). exact H.
Qed.

(** C2, amended: when the backend answers the status query with a JSON
    object, the status field of the result of [check_tts_status] is the
    backend's status value, unchanged, and ["UNKNOWN"] when the answer has
    none; the call can raise only for a COMPLETED answer (whose output
    is not an object).  The polling loop compares that raw value with
    COMPLETED, FAILED and ERROR: on FAILED or ERROR the attempt marks the
    record failed with the backend's error and returns, and on every value
    that is none of the three it writes nothing and goes on to the next
    attempt. *)
Theorem check_tts_status_passes_status_through (w : world)
    (gen_id run_id : string) (s : state)
    (resp : response) (d : gmap string json)
    (Hpost : post_status w run_id = Returns resp)
    (Hjson : json_body resp = Returns (JObj d)) :
  let st := dict_get d "status" (JStr "UNKNOWN") in
  match check_tts_status w run_id with
  | Returns result => result !! "status" = Some st
  | Raises _ => eq_str st "COMPLETED" = true
  end
  /\ (if nonterminal st then
        attempt w gen_id run_id s =
          (Returns NextAttempt, extend s [Sleep 5; StatusQuery run_id])
      else if eq_str st "FAILED" || eq_str st "ERROR" then
        let err := dict_get d "error" (JStr "Unknown error") in
        attempt w gen_id run_id s =
          (Returns Returned,
           {| table := alter (set_failed err (now w)) gen_id (table s);
              trace := trace s ++ [Sleep 5; StatusQuery run_id;
                                   UpdateFailed gen_id err (now w)] |})
      else eq_str st "COMPLETED" = true).
Proof.
  intros st. split.
  - destruct (check_tts_status w run_id) as [result|e] eqn:Hc.
    + apply check_tts_status_result in Hc as (resp' & d' & Hp & Hj & Hst).
      rewrite Hpost in Hp. injection Hp as <-. rewrite Hjson in Hj.
      by injection Hj as <-.
    + unfold check_tts_status in Hc. rewrite Hpost in Hc. simpl in Hc.
      rewrite Hjson in Hc. simpl in Hc. fold st in Hc.
      destruct (eq_str st "COMPLETED"); [done|].
      by destruct (eq_str st "FAILED" || eq_str st "ERROR").
  - assert (Hc : check_tts_status w run_id =
              if eq_str st "COMPLETED" then
                obind (get (dict_get d "output" (JObj ∅)) "download_url" JNull)
                  (fun url => Returns (<["download_url" := url]>
                                         {[ "status" := st ]}))
              else if eq_str st "FAILED" || eq_str st "ERROR" then
                Returns (<["error" := dict_get d "error" (JStr "Unknown error")]>
                           {[ "status" := st ]})
              else Returns {[ "status" := st ]}).
    { unfold check_tts_status. rewrite Hpost. simpl. by rewrite Hjson. }
    destruct (nonterminal st) eqn:Hn.
    + pose proof Hn as Hn'. unfold nonterminal in Hn'.
      apply andb_true_iff in Hn' as [H1 H2]. apply negb_true_iff in H1, H2.
      rewrite H1, H2 in Hc.
      eapply attempt_nonterminal; [exact Hc| |exact Hn].
      apply lookup_singleton_eq.
    + destruct (eq_str st "FAILED" || eq_str st "ERROR") eqn:Hf.
      * rewrite (failed_is_not_completed _ Hf) in Hc.
        assert (Hst : (<["error" := dict_get d "error" (JStr "Unknown error")]>
                         ({[ "status" := st ]} : gmap string json)) !! "status"
                      = Some st)
          by (by rewrite lookup_insert_ne, lookup_singleton_eq).
        pose proof (attempt_failed w gen_id run_id s _ st Hc Hst Hf) as Ha.
        cbv zeta in Ha. unfold dict_get at 1 3 in Ha.
        rewrite lookup_insert_eq in Ha. exact Ha.
      * unfold nonterminal in Hn. rewrite Hf in Hn. simpl in Hn.
        rewrite andb_true_r in Hn. by apply negb_false_iff in Hn.
Qed.

Lemma check_tts_status_passes_status_through_witness :
  match check_tts_status in_progress_world "run-42" with
  | Returns result => result !! "status" = Some (JStr "IN_PROGRESS")
  | Raises _ => False
  end
  /\ attempt in_progress_world "gen-1" "run-42" sample_state
     = (Returns NextAttempt, extend sample_state [Sleep 5; StatusQuery "run-42"]).
Proof.
  pose proof (check_tts_status_passes_status_through in_progress_world
                "gen-1" "run-42" sample_state
                (json_response {[ "status" := JStr "IN_PROGRESS" ]})
                {[ "status" := JStr "IN_PROGRESS" ]} eq_refl eq_refl) as [H Ha].
  split; [|exact Ha]. simpl in H.
  destruct (check_tts_status in_progress_world "run-42"); [exact H|discriminate H].
Defined.

Lemma substring_length_le (s : string) : forall (n : nat),
  (String.length (String.substring 0 n s) <= n)%nat.
Proof.
  induction s as [|c s IH]; intros [|n]; simpl; try lia.
  specialize (IH n). lia.
Qed.

Lemma append_inj_l (a b c : string) : a +:+ b = a +:+ c -> b = c.
Proof. induction a as [|x a IH]; simpl; intros H; [done|]. injection H. exact IH. Qed.

Lemma string_of_length_length (n : nat) : String.length (string_of_length n) = n.
Proof. induction n as [|n IH]; simpl; [done|by rewrite IH]. Qed.

Lemma submit_tts_job_refused (w : world) (text : string) (voice : json)
    (resp : response) :
  post_run w (submit_payload text voice) = Returns resp ->
  status_code resp <> 200 ->
  submit_tts_job w text voice =
    Raises (Exception ("RunPod API failed: " +:+ pretty (status_code resp)
                       +:+ " - " +:+ response_text resp)).
Proof.
  intros Hpost Hne. unfold submit_tts_job. rewrite Hpost. simpl.
  apply Z.eqb_neq in Hne. by rewrite Hne.
Qed.

(** C7, counterexample: no cut-off length fits.  Whatever the limit, a
    submission answered 500 with a body one character longer than the limit
    raises a message that carries the body whole, not the body cut at the
    limit.  And a success status other than 200 does not return the job id:
    answered 201 with a JSON object carrying the id, the submission
    raises. *)
Lemma submit_tts_job_truncates_at_no_length :
  ~ (exists limit, truncates_error_body_at limit)
  /\ submit_tts_job created_world "Hello" JNull =
       Raises (Exception ("RunPod API failed: 201 - " +:+ text created_response)).
Proof.
  split; [|reflexivity]. intros [limit H].
  set (body := string_of_length (S limit)).
  assert (Hpost : post_run (refusing_world body) (submit_payload "Hello" JNull)
                  = Returns {| status_code := 500; text := body; content := [];
                               json_body := Raises (Exception "JSONDecodeError") |})
    by reflexivity.
  assert (Hne : status_code {| status_code := 500; text := body; content := [];
                               json_body := Raises (Exception "JSONDecodeError") |}
                <> 200) by done.
  pose proof (H _ _ _ _ Hpost Hne) as Hcut.
  rewrite (submit_tts_job_refused _ _ _ _ Hpost Hne) in Hcut.
  unfold response_text in Hcut. cbn [status_code text] in Hcut.
  assert (Hm : "RunPod API failed: " +:+ pretty 500 +:+ " - " +:+ body
               = "RunPod API failed: " +:+ pretty 500 +:+ " - "
                 +:+ truncated limit body) by congruence.
  do 3 apply append_inj_l in Hm.
  pose proof (substring_length_le body limit) as Hle.
  unfold truncated in Hm. rewrite <- Hm in Hle.
  unfold body in Hle. rewrite string_of_length_length in Hle. lia.
Qed.

(** C7, amended: when the backend answers the submission with an HTTP
    status other than 200, [submit_tts_job] raises an exception whose
    message is "RunPod API failed: <status code> - <response body>", with
    the status code and the complete response body; on status 200 it returns
    the ["id"] of the JSON object answered ([None] when the object has
    none), and raises when the body is not JSON or not an object. *)
Theorem submit_tts_job_outcome (w : world) (text : string) (voice : json)
    (resp : response)
    (Hpost : post_run w (submit_payload text voice) = Returns resp) :
  if decide (status_code resp = 200) then
    match json_body resp with
    | Returns (JObj d) =>
        submit_tts_job w text voice = Returns (dict_get d "id" JNull)
    | Returns _ => exists e, submit_tts_job w text voice = Raises e
    | Raises e => submit_tts_job w text voice = Raises e
    end
  else
    submit_tts_job w text voice =
      Raises (Exception ("RunPod API failed: " +:+ pretty (status_code resp)
                         +:+ " - " +:+ response_text resp)).
Proof.
  destruct (decide (status_code resp = 200)) as [Hok|Hne].
  - unfold submit_tts_job. rewrite Hpost. simpl. rewrite Hok. simpl.
    destruct (json_body resp) as [[]|]; simpl; eauto.
  - by apply submit_tts_job_refused.
Qed.

Lemma submit_tts_job_outcome_witness :
  submit_tts_job overloaded_world "Hello" JNull =
    Raises (Exception "RunPod API failed: 500 - upstream connect error or disconnect")
  /\ submit_tts_job accepting_world "Hello" JNull = Returns (JStr "run-42").
Proof.
  split.
  - exact (submit_tts_job_outcome overloaded_world "Hello" JNull
             overloaded_response eq_refl).
  - exact (submit_tts_job_outcome accepting_world "Hello" JNull
             (json_response {[ "id" := JStr "run-42" ]}) eq_refl).
Defined.

(** * The record store *)

Lemma alter_present (f : Generation -> Generation) (t : gmap string Generation)
    (i : string) (g : Generation) :
  t !! i = Some g -> alter f i t = <[i := f g]> t.
Proof.
  intros H. rewrite <- (insert_id t i g H) at 1. by rewrite alter_insert_eq.
Qed.

(** C9: [refresh_signed_url] never raises.  It asks the store for a URL
    signed for 3600 seconds, one hour; when the store answers, it returns
    the ["signedURL"] of the answer, and when the call fails in any way it
    returns the empty string. *)
Theorem refresh_signed_url_never_raises (w : world) (storage_path : string)
    (s : state) :
  refresh_signed_url w storage_path s =
    (Returns (match storage_create_signed_url w storage_path 3600 with
              | Returns (JObj answer) => dict_get answer "signedURL" (JStr "")
              | Returns _ => JStr ""
              | Raises _ => JStr ""
              end),
     extend s [CreateSignedUrl storage_path 3600]).
Proof.
  unfold refresh_signed_url. unfold_M. simpl.
  destruct (storage_create_signed_url w storage_path 3600) as [[]|]; done.
Qed.

(** * POST /api/generate *)

(** C8: for a request that reaches [api_generate], with [text] the stripped
    request text: if [text] is empty or longer than 25000 characters, the
    endpoint raises HTTP 400 and neither the table nor the log changes, so no
    record is created.  Otherwise [create_generation] stores and returns a
    record with status "processing" whose error, storage_path, file_url
    and completed_at are null; the endpoint then answers "processing" and
    schedules the polling task, or, when the submission fails, marks that
    record failed and raises HTTP 500. *)
Theorem api_generate_validation (w : world) (request : GenerateRequest) (s : state) :
  let text := strip (request_text request) in
  if String.eqb text "" || (25000 <? len text) then
    exists detail,
      api_generate w request s = (Raises (HTTPException 400 detail), s)
  else
    exists row,
      id row = uuid4 w /\ text_content row = text
      /\ status row = "processing"
      /\ error row = JNull /\ storage_path row = JNull
      /\ file_url row = JNull /\ completed_at row = JNull
      /\ (exists title description,
            create_generation w text title description s =
              (Returns (Some row),
               {| table := <[uuid4 w := row]> (table s);
                  trace := trace s ++ [Insert row] |}))
      /\ match submit_tts_job w text JNull with
         | Returns runpod_job_id =>
             api_generate w request s =
               (Returns {| job_id := uuid4 w; response_status := "processing" |},
                {| table := <[uuid4 w := row]> (table s);
                   trace := trace s ++ [Insert row; AddTask (uuid4 w) runpod_job_id] |})
         | Raises e =>
             let err := JStr (str_of_exn e) in
             api_generate w request s =
               (Raises (HTTPException 500
                          ("Failed to submit TTS job: " +:+ str_of_exn e)),
                {| table := <[uuid4 w := set_failed err (now w) row]> (table s);
                   trace := trace s ++ [Insert row; UpdateFailed (uuid4 w) err (now w)] |})
         end.
Proof.
  intros text. unfold api_generate. fold text. simpl.
  destruct (String.eqb text "") eqn:Hempty; simpl.
  { exists "Text is required". done. }
  change MAX_TEXT_LENGTH with 25000.
  destruct (25000 <? len text) eqn:Hlong.
  { eexists. done. }
  set (td := if negb (truthy (request_title request))
             then let '(t, d) := generate_title_and_description w text in (JStr t, JStr d)
             else let '(_, d) := generate_title_and_description w text in
                  (request_title request, JStr d)).
  destruct td as [title description] eqn:Htd.
  set (row := {| id := uuid4 w; title := title; description := description;
                 text_content := text; status := "processing";
                 created_at := now w; storage_path := JNull; file_url := JNull;
                 error := JNull; completed_at := JNull |}).
  exists row. do 7 (split; [done|]). split.
  { by exists title, description. }
  unfold create_generation, insert_execute, update_generation_failed. unfold_M.
  simpl. fold row.
  destruct (submit_tts_job w text JNull) as [runpod_job_id|e]; simpl.
  - by rewrite <- !app_assoc.
  - by rewrite alter_insert_eq, <- !app_assoc.
Qed.

(** * The polling loop *)

Lemma check_tts_status_failed (w : world) (run_id : string) (resp : response)
    (d : gmap string json) :
  post_status w run_id = Returns resp ->
  json_body resp = Returns (JObj d) ->
  d !! "status" = Some (JStr "FAILED") ->
  check_tts_status w run_id =
    Returns (<["error" := dict_get d "error" (JStr "Unknown error")]>
             {[ "status" := JStr "FAILED" ]}).
Proof.
  intros Hp Hj Hst. unfold check_tts_status. rewrite Hp. simpl. rewrite Hj. simpl.
  replace (dict_get d "status" (JStr "UNKNOWN")) with (JStr "FAILED")
    by (unfold dict_get; by rewrite Hst).
  done.
Qed.

Lemma poll_loop_going (env : nat -> world) (gen_id runpod_job_id : string)
    (k : nat) (s : state) :
  fst (poll_loop env gen_id runpod_job_id k 0 s) = Returns NextAttempt ->
  exists pre,
    poll_loop env gen_id runpod_job_id k 0 s = (Returns NextAttempt, extend s pre)
    /\ writes pre = [] /\ polls pre = k.
Proof.
  intros H. destruct (poll_loop_shape env gen_id runpod_job_id k 0 s)
    as (f & evs & Heq & Hf).
  rewrite Heq in H. simpl in H. injection H as ->. destruct Hf as [Hw Hn].
  exists evs. rewrite Heq, (replay_no_writes _ _ Hw). done.
Qed.

(** C3: when each of the 60 polls returns a status that is none of
    COMPLETED, FAILED and ERROR, the run makes its 60 attempts, each a sleep
    and a status query, and ends by one write that moves the Generation to
    status "failed" with error "Generation timed out". *)
Theorem process_tts_job_times_out (env : nat -> world) (gen_id runpod_job_id : string)
    (s : state) (g : Generation)
    (Hrow : table s !! gen_id = Some g)
    (Hpolls : forall i, (i < 60)%nat -> poll_nonterminal (env i) runpod_job_id = true) :
  let err := JStr "Generation timed out" in
  let at_ := now (env 60%nat) in
  process_tts_job env gen_id runpod_job_id s =
    (Returns tt,
     {| table := <[gen_id := set_failed err at_ g]> (table s);
        trace := trace s ++ idle_calls runpod_job_id 60
                         ++ [UpdateFailed gen_id err at_] |})
  /\ status (set_failed err at_ g) = "failed"
  /\ error (set_failed err at_ g) = JStr "Generation timed out".
Proof.
  intros err at_. split; [|done].
  unfold process_tts_job, bind.
  rewrite (poll_loop_idle env gen_id runpod_job_id max_attempts 0 s).
  - unfold update_generation_failed. unfold_M. simpl.
    by rewrite (alter_present _ _ _ _ Hrow), <- app_assoc.
  - intros j Hj. simpl. rewrite (Hpolls j Hj). apply orb_true_r.
Qed.

Lemma process_tts_job_times_out_witness :
  table (snd (process_tts_job (fun _ => running_world) "gen-1" "run-42" sample_state))
    !! "gen-1"
  = Some (set_failed (JStr "Generation timed out") sample_now sample_generation).
Proof.
  destruct (process_tts_job_times_out (fun _ => running_world) "gen-1" "run-42"
              sample_state sample_generation eq_refl (fun _ _ => eq_refl))
    as [H _].
  rewrite H. apply lookup_insert_eq.
Defined.

(** C4: when the attempts before attempt [k] have not ended the loop and
    the poll of attempt [k] returns COMPLETED with no download reference
    (absent, [None] or empty), that attempt writes status "failed" with
    error "No download URL received" and the run ends there: the write is
    the last call of the run, after exactly [k + 1] status queries. *)
Theorem process_tts_job_no_download_url (env : nat -> world)
    (gen_id runpod_job_id : string) (s : state) (g : Generation) (k : nat)
    (result : gmap string json)
    (Hrow : table s !! gen_id = Some g)
    (Hk : (k < 60)%nat)
    (Hgoing : fst (poll_loop env gen_id runpod_job_id k 0 s) = Returns NextAttempt)
    (Hpoll : check_tts_status (env k) runpod_job_id = Returns result)
    (Hstatus : result !! "status" = Some (JStr "COMPLETED"))
    (Hnone : truthy (dict_get result "download_url" JNull) = false) :
  let err := JStr "No download URL received" in
  let at_ := now (env k) in
  exists pre,
    process_tts_job env gen_id runpod_job_id s =
      (Returns tt,
       {| table := <[gen_id := set_failed err at_ g]> (table s);
          trace := trace s ++ pre ++ [Sleep 5; StatusQuery runpod_job_id;
                                      UpdateFailed gen_id err at_] |})
    /\ writes pre = [] /\ polls pre = k
    /\ status (set_failed err at_ g) = "failed"
    /\ error (set_failed err at_ g) = JStr "No download URL received".
Proof.
  intros err at_.
  destruct (poll_loop_going _ _ _ _ _ Hgoing) as (pre & Hpre & Hw & Hn).
  exists pre. split; [|done].
  eapply process_tts_job_stops_at; [exact Hk|exact Hpre|].
  rewrite (attempt_no_download_url _ _ _ _ _ Hpoll Hstatus Hnone).
  unfold extend. simpl. by rewrite (alter_present _ _ _ _ Hrow), <- app_assoc.
Qed.

Lemma process_tts_job_no_download_url_witness :
  exists pre,
    process_tts_job (switch_after 2 running_world no_output_world)
      "gen-1" "run-42" sample_state =
      (Returns tt,
       {| table := <["gen-1" := set_failed (JStr "No download URL received")
                                  sample_now sample_generation]>
                     (table sample_state);
          trace := trace sample_state ++ pre
                   ++ [Sleep 5; StatusQuery "run-42";
                       UpdateFailed "gen-1" (JStr "No download URL received")
                         sample_now] |})
    /\ polls pre = 2%nat.
Proof.
  destruct (process_tts_job_no_download_url
              (switch_after 2 running_world no_output_world) "gen-1" "run-42"
              sample_state sample_generation 2
              (<["download_url" := JNull]> {[ "status" := JStr "COMPLETED" ]})
              eq_refl ltac:(lia) eq_refl eq_refl eq_refl eq_refl)
    as (pre & H & _ & Hn & _).
  exists pre. split; [exact H | exact Hn].
Defined.

(** C6: an attempt whose status query raises writes nothing and ends
    normally, so the loop goes on with the next attempt.  In particular,
    when the polls of the first [k] attempts raise ([k = 5] in the
    specification's example) and the backend then answers FAILED, the table
    is untouched through those [k] attempts and the run ends with status
    "failed" and the backend's error value, or "Unknown error" when the
    answer has none. *)
Theorem process_tts_job_survives_poll_exceptions (env : nat -> world)
    (gen_id runpod_job_id : string) (s : state) (g : Generation) (k : nat)
    (resp : response) (d : gmap string json) (w' : world) (s' : state)
    (Hany : poll_raises w' runpod_job_id = true)
    (Hrow : table s !! gen_id = Some g)
    (Hk : (k < 60)%nat)
    (Hraise : forall i, (i < k)%nat -> poll_raises (env i) runpod_job_id = true)
    (Hpost : post_status (env k) runpod_job_id = Returns resp)
    (Hjson : json_body resp = Returns (JObj d))
    (Hstatus : d !! "status" = Some (JStr "FAILED")) :
  let err := dict_get d "error" (JStr "Unknown error") in
  let at_ := now (env k) in
  attempt w' gen_id runpod_job_id s' =
    (Returns NextAttempt, extend s' [Sleep 5; StatusQuery runpod_job_id])
  /\ poll_loop env gen_id runpod_job_id k 0 s =
       (Returns NextAttempt, extend s (idle_calls runpod_job_id k))
  /\ process_tts_job env gen_id runpod_job_id s =
       (Returns tt,
        {| table := <[gen_id := set_failed err at_ g]> (table s);
           trace := trace s ++ idle_calls runpod_job_id k
                    ++ [Sleep 5; StatusQuery runpod_job_id;
                        UpdateFailed gen_id err at_] |})
  /\ status (set_failed err at_ g) = "failed"
  /\ error (set_failed err at_ g) = err.
Proof.
  intros err at_.
  assert (Hidle : poll_loop env gen_id runpod_job_id k 0 s =
                    (Returns NextAttempt, extend s (idle_calls runpod_job_id k))).
  { apply poll_loop_idle. intros j Hj. simpl. by rewrite (Hraise j Hj). }
  split.
  { unfold poll_raises in Hany.
    destruct (check_tts_status w' runpod_job_id) as [|e] eqn:Hc; [done|].
    by eapply attempt_raises. }
  split; [exact Hidle|]. split; [|done].
  eapply process_tts_job_stops_at; [exact Hk|exact Hidle|].
  pose proof (check_tts_status_failed _ _ _ _ Hpost Hjson Hstatus) as Hc.
  rewrite (attempt_failed _ _ _ _ _ (JStr "FAILED") Hc); [|done|done].
  unfold extend. simpl.
  replace (dict_get (<["error":=dict_get d "error" (JStr "Unknown error")]>
                       {["status" := JStr "FAILED"]}) "error" (JStr "Unknown error"))
    with err by (unfold dict_get at 1; by rewrite lookup_insert_eq).
  by rewrite (alter_present _ _ _ _ Hrow), <- app_assoc.
Qed.

Lemma process_tts_job_survives_poll_exceptions_witness :
  table (snd (process_tts_job (switch_after 5 offline_world failed_world)
                "gen-1" "run-42" sample_state)) !! "gen-1"
  = Some (set_failed (JStr "CUDA out of memory") sample_now sample_generation).
Proof.
  assert (Hraise : forall i, (i < 5)%nat ->
            poll_raises (switch_after 5 offline_world failed_world i) "run-42" = true).
  { intros i Hi. do 5 (destruct i as [|i]; [reflexivity|]). lia. }
  destruct (process_tts_job_survives_poll_exceptions
              (switch_after 5 offline_world failed_world) "gen-1" "run-42"
              sample_state sample_generation 5
              (json_response (<["status" := JStr "FAILED"]>
                                {[ "error" := JStr "CUDA out of memory" ]}))
              (<["status" := JStr "FAILED"]> {[ "error" := JStr "CUDA out of memory" ]})
              offline_world sample_state
              eq_refl eq_refl ltac:(lia) Hraise eq_refl eq_refl eq_refl)
    as (_ & _ & H & _).
  rewrite H. apply lookup_insert_eq.
Defined.

Lemma apply_terminal_write (gen_id : string) (wr : event)
    (t : gmap string Generation) (g : Generation) :
  terminal_write gen_id wr -> t !! gen_id = Some g ->
  apply_event wr t = <[gen_id := row_after wr g]> t.
Proof.
  intros Hw Hrow. destruct wr; try done; simpl in *; subst;
    by apply alter_present.
Qed.

(** With a single write at the end of the calls, the table seen after any
    part of the calls is the initial one, until all calls are made. *)
Lemma replay_before_last_write (pre : list event) (wr : event)
    (t : gmap string Generation) :
  writes pre = [] ->
  forall seen rest, pre ++ [wr] = seen ++ rest ->
    replay seen t = match rest with [] => apply_event wr t | _ :: _ => t end.
Proof.
  intros Hw seen rest Heq. destruct rest as [|r rest].
  - rewrite app_nil_r in Heq. subst seen.
    by rewrite replay_app, (replay_no_writes _ _ Hw).
  - destruct (exists_last (l := r :: rest) ltac:(done)) as (rest' & a & Hr).
    rewrite Hr, app_assoc in Heq. apply app_inj_tail in Heq as [-> _].
    rewrite writes_app in Hw. apply app_eq_nil in Hw as [Hw _].
    by apply replay_no_writes.
Qed.

Lemma mp3_path_nonempty (gen_id : string) : gen_id +:+ ".mp3" <> "".
Proof. by destruct gen_id. Qed.

(** C5: a run over a record in status "processing" logs exactly one
    table write, a terminal write for that record and the last call of the
    run; it leaves the record in status "completed" or "failed".  The
    status read from the table after any part of the run's calls is
    "processing" until that last call and the terminal status after it; no
    other record changes at any point. *)
Theorem process_tts_job_one_terminal_transition (env : nat -> world)
    (gen_id runpod_job_id : string) (s : state) (g : Generation)
    (Hrow : table s !! gen_id = Some g)
    (Hprocessing : status g = "processing") :
  exists (pre : list event) (wr : event) (g' : Generation),
    process_tts_job env gen_id runpod_job_id s =
      (Returns tt, {| table := <[gen_id := g']> (table s);
                      trace := trace s ++ pre ++ [wr] |})
    /\ writes (pre ++ [wr]) = [wr]
    /\ terminal_write gen_id wr
    /\ (status g' = "completed" \/ status g' = "failed")
    /\ forall seen rest, pre ++ [wr] = seen ++ rest ->
         status <$> replay seen (table s) !! gen_id
           = Some (match rest with [] => status g' | _ :: _ => "processing" end)
         /\ forall other, other <> gen_id ->
              replay seen (table s) !! other = table s !! other.
Proof.
  destruct (process_tts_job_shape env gen_id runpod_job_id s)
    as (pre & wr & Heq & Hw & _ & Hwr).
  assert (Ht : terminal_write gen_id wr).
  { destruct Hwr as [(j & _ & Hj)|[-> _]]; [|done].
    by eapply write_of_attempt_terminal. }
  exists pre, wr, (row_after wr g).
  rewrite (apply_terminal_write gen_id wr _ g Ht Hrow) in Heq.
  split; [exact Heq|].
  split; [by rewrite writes_app, Hw, (terminal_write_is_write gen_id)|].
  split; [exact Ht|].
  split; [destruct wr; try done; simpl; auto|].
  intros seen rest Hsplit.
  rewrite (replay_before_last_write pre wr (table s) Hw seen rest Hsplit).
  destruct rest.
  - rewrite (apply_terminal_write gen_id wr _ g Ht Hrow).
    split; [by rewrite lookup_insert_eq|].
    intros other Hne. by apply lookup_insert_ne.
  - by rewrite Hrow; simpl; rewrite Hprocessing.
Qed.

Lemma process_tts_job_one_terminal_transition_witness :
  exists g',
    table (snd (process_tts_job (switch_after 2 running_world completed_world)
                  "gen-1" "run-42" sample_state)) !! "gen-1" = Some g'
    /\ (status g' = "completed" \/ status g' = "failed").
Proof.
  destruct (process_tts_job_one_terminal_transition
              (switch_after 2 running_world completed_world) "gen-1" "run-42"
              sample_state sample_generation eq_refl eq_refl)
    as (pre & wr & g' & H & _ & _ & Hst & _).
  exists g'. rewrite H. split; [apply lookup_insert_eq | exact Hst].
Defined.

(** C1, counterexample: two runs in which the backend reports RUNNING
    twice and then COMPLETED with a download reference.  In the first the
    store's signing answer has no ["signedURL"], and the record ends
    "completed" with an empty file_url.  In the second the download link
    answers 404 at every attempt, and the record ends "failed". *)
Lemma process_tts_job_completed_claim_fails :
  let unsigned := switch_after 2 running_world unsigned_world in
  let expired := switch_after 2 running_world expired_link_world in
  let reported :=
    <["download_url" := JStr "https://cdn.example/a.mp3"]>
      ({[ "status" := JStr "COMPLETED" ]} : gmap string json) in
  (poll_status (unsigned 0%nat) "run-42" = Some (JStr "RUNNING")
   /\ poll_status (unsigned 1%nat) "run-42" = Some (JStr "RUNNING")
   /\ check_tts_status (unsigned 2%nat) "run-42" = Returns reported
   /\ table (snd (process_tts_job unsigned "gen-1" "run-42" sample_state)) !! "gen-1"
      = Some (set_completed "gen-1.mp3" (JStr "") sample_now sample_generation))
  /\ (poll_status (expired 0%nat) "run-42" = Some (JStr "RUNNING")
      /\ poll_status (expired 1%nat) "run-42" = Some (JStr "RUNNING")
      /\ check_tts_status (expired 2%nat) "run-42" = Returns reported
      /\ table (snd (process_tts_job expired "gen-1" "run-42" sample_state)) !! "gen-1"
         = Some (set_failed (JStr "Generation timed out") sample_now
                   sample_generation)).
Proof. vm_compute. repeat split. Qed.

(** C1, amended: a record created in status "processing" with storage_path
    and file_url unset keeps that shape through a run until the run's last
    call, and then has exactly one of two shapes: "completed" with
    storage_path the id followed by ".mp3" (never empty) and file_url the
    store's signing answer (the empty string when the answer has no
    ["signedURL"]), or "failed" with storage_path and file_url unset and
    error one of the written messages.  In particular, when the backend
    reports RUNNING for [k < 60] polls and then COMPLETED with a download
    reference, and the download, the upload and the signing succeed, the
    record ends "completed" with storage_path the id followed by ".mp3" and
    file_url the ["signedURL"] of the signing answer. *)
Theorem generation_record_shapes (any_env env : nat -> world)
    (gen_id runpod_job_id : string) (s : state) (g : Generation) (k : nat)
    (result : gmap string json) (audio : list Byte.byte)
    (signed : gmap string json)
    (Hrow : table s !! gen_id = Some g)
    (Hcreated : processing_shape g)
    (Hk : (k < 60)%nat)
    (Hrunning : forall i, (i < k)%nat ->
                  poll_status (env i) runpod_job_id = Some (JStr "RUNNING"))
    (Hpoll : check_tts_status (env k) runpod_job_id = Returns result)
    (Hstatus : result !! "status" = Some (JStr "COMPLETED"))
    (Hurl : truthy (dict_get result "download_url" JNull) = true)
    (Hdownload : download_audio (env k) (dict_get result "download_url" JNull)
                 = Returns audio)
    (Hupload : storage_upload (env k) (gen_id +:+ ".mp3") audio = Returns tt)
    (Hsigned : storage_create_signed_url (env k) (gen_id +:+ ".mp3") 1209600
               = Returns (JObj signed)) :
  (exists (evs : list event) (g' : Generation),
     process_tts_job any_env gen_id runpod_job_id s =
       (Returns tt, {| table := <[gen_id := g']> (table s);
                       trace := trace s ++ evs |})
     /\ (completed_shape any_env gen_id g'
         \/ failed_shape any_env gen_id runpod_job_id g')
     /\ forall seen rest, evs = seen ++ rest ->
          replay seen (table s) !! gen_id
            = Some (match rest with [] => g' | _ :: _ => g end))
  /\ (let path := gen_id +:+ ".mp3" in
      let url := dict_get signed "signedURL" (JStr "") in
      let g' := set_completed path url (now (env k)) g in
      process_tts_job env gen_id runpod_job_id s =
        (Returns tt,
         {| table := <[gen_id := g']> (table s);
            trace := trace s ++ idle_calls runpod_job_id k
                     ++ [Sleep 5; StatusQuery runpod_job_id;
                         Download (dict_get result "download_url" JNull);
                         Upload path audio; CreateSignedUrl path 1209600;
                         UpdateCompleted gen_id path url (now (env k))] |})
      /\ completed_shape env gen_id g'
      /\ file_url g' = dict_get signed "signedURL" (JStr "")).
Proof.
  destruct Hcreated as (Hp & Hsp & Hfu). split.
  - destruct (process_tts_job_shape any_env gen_id runpod_job_id s)
      as (pre & wr & Heq & Hw & _ & Hwr).
    assert (Ht : terminal_write gen_id wr).
    { destruct Hwr as [(j & _ & Hj)|[-> _]]; [|done].
      by eapply write_of_attempt_terminal. }
    exists (pre ++ [wr]), (row_after wr g).
    rewrite (apply_terminal_write gen_id wr _ g Ht Hrow) in Heq.
    split; [exact Heq|]. split.
    + destruct Hwr as [(j & Hj & Hwr)|[-> _]].
      * destruct wr; try done; simpl in Hwr.
        -- destruct Hwr as (-> & -> & -> & sg & Hs & ->). left.
           split; [done|]. split; [done|]. split; [apply mp3_path_nonempty|].
           by exists j, sg.
        -- destruct Hwr as (-> & -> & Herr). right.
           split; [done|]. split; [done|]. split; [done|]. simpl.
           destruct Herr as [->|(res & Hres & ->)]; [by right; left|].
           right; right. by exists j, res.
      * right. split; [done|]. split; [done|]. split; [done|]. by left.
    + intros seen rest Hsplit.
      rewrite (replay_before_last_write pre wr (table s) Hw seen rest Hsplit).
      destruct rest; [|done].
      rewrite (apply_terminal_write gen_id wr _ g Ht Hrow). apply lookup_insert_eq.
  - intros path url g'. split; [|split; [|done]].
    + eapply process_tts_job_stops_at; [exact Hk| |].
      * apply poll_loop_idle. intros j Hj. simpl.
        unfold poll_nonterminal. rewrite (Hrunning j Hj). apply orb_true_r.
      * rewrite (attempt_completed _ _ _ _ _ audio signed Hpoll Hstatus Hurl
                   Hdownload Hupload Hsigned).
        unfold extend. simpl.
        by rewrite (alter_present _ _ _ _ Hrow), <- app_assoc.
    + split; [done|]. split; [done|]. split; [apply mp3_path_nonempty|].
      exists k, signed. split; [exact Hk|]. done.
Qed.

Lemma generation_record_shapes_witness :
  table (snd (process_tts_job (switch_after 2 running_world completed_world)
                "gen-1" "run-42" sample_state)) !! "gen-1"
  = Some (set_completed "gen-1.mp3" (JStr "https://store.example/signed")
            sample_now sample_generation).
Proof.
  assert (Hrunning : forall i, (i < 2)%nat ->
            poll_status (switch_after 2 running_world completed_world i) "run-42"
            = Some (JStr "RUNNING")).
  { intros i Hi. do 2 (destruct i as [|i]; [reflexivity|]). lia. }
  destruct (generation_record_shapes
              (switch_after 2 running_world unsigned_world)
              (switch_after 2 running_world completed_world)
              "gen-1" "run-42" sample_state sample_generation 2
              (<["download_url" := JStr "https://cdn.example/a.mp3"]>
                 {[ "status" := JStr "COMPLETED" ]})
              [Byte.x49; Byte.x44; Byte.x33]
              {[ "signedURL" := JStr "https://store.example/signed" ]}
              eq_refl (conj eq_refl (conj eq_refl eq_refl)) ltac:(lia) Hrunning
              eq_refl eq_refl eq_refl eq_refl eq_refl eq_refl)
    as (_ & H & _).
  rewrite H. apply lookup_insert_eq.
Defined.

(** * Further properties *)

(** ** The polling loop, uniformly in the state *)

Lemma seconds_slept_app (a b : list event) :
  seconds_slept (a ++ b) = seconds_slept a + seconds_slept b.
Proof.
  induction a as [|e a IH]; [done|]. destruct e; simpl; rewrite IH; lia.
Qed.

Lemma alter_absent (f : Generation -> Generation) (t : gmap string Generation)
    (i : string) :
  t !! i = None -> alter f i t = t.
Proof.
  intros H. apply map_eq. intros j. rewrite lookup_alter.
  case_decide; [subst; by rewrite H|done].
Qed.

(** What an attempt logs and whether it returns depend on the world only,
    not on the table. *)
Lemma attempt_uniform (w : world) (gen_id runpod_job_id : string) :
  exists (f : flow) (evs : list event),
    (forall s, attempt w gen_id runpod_job_id s =
       (Returns f, {| table := replay evs (table s); trace := trace s ++ evs |}))
    /\ polls evs = 1%nat /\ seconds_slept evs = 5
    /\ match f with
       | NextAttempt => writes evs = []
       | Returned => exists pre wr, evs = pre ++ [wr] /\ writes pre = []
                                    /\ terminal_write gen_id wr
       end.
Proof.
  unfold attempt, attempt_try, update_generation_failed,
    update_generation_completed, upload_audio_to_storage, index.
  unfold_M. simpl.
  destruct (check_tts_status w runpod_job_id) as [result|e] eqn:Hc; simpl.
  2: { exists NextAttempt, [Sleep 5; StatusQuery runpod_job_id].
       split; [intros s; by rewrite <- !app_assoc|done]. }
  destruct (result !! "status") as [st|]; simpl.
  2: { exists NextAttempt, [Sleep 5; StatusQuery runpod_job_id].
       split; [intros s; by rewrite <- !app_assoc|done]. }
  destruct (eq_str st "COMPLETED").
  - destruct (truthy (dict_get result "download_url" JNull)); simpl.
    + set (url := dict_get result "download_url" JNull).
      destruct (download_audio w url) as [audio|e]; simpl.
      2: { exists NextAttempt, [Sleep 5; StatusQuery runpod_job_id; Download url].
           split; [intros s; by rewrite <- !app_assoc|done]. }
      set (path := gen_id +:+ ".mp3").
      destruct (storage_upload w path audio) as [[]|e]; simpl.
      2: { exists NextAttempt,
             [Sleep 5; StatusQuery runpod_job_id; Download url; Upload path audio].
           split; [intros s; by rewrite <- !app_assoc|done]. }
      destruct (storage_create_signed_url w path 1209600) as [signed|e]; simpl.
      2: { exists NextAttempt,
             [Sleep 5; StatusQuery runpod_job_id; Download url; Upload path audio;
              CreateSignedUrl path 1209600].
           split; [intros s; by rewrite <- !app_assoc|done]. }
      destruct (get signed "signedURL" (JStr "")) as [url'|e]; simpl.
      2: { exists NextAttempt,
             [Sleep 5; StatusQuery runpod_job_id; Download url; Upload path audio;
              CreateSignedUrl path 1209600].
           split; [intros s; by rewrite <- !app_assoc|done]. }
      exists Returned,
        [Sleep 5; StatusQuery runpod_job_id; Download url; Upload path audio;
         CreateSignedUrl path 1209600; UpdateCompleted gen_id path url' (now w)].
      split; [intros s; by rewrite <- !app_assoc|]. split; [done|]. split; [done|].
      by exists [Sleep 5; StatusQuery runpod_job_id; Download url; Upload path audio;
              CreateSignedUrl path 1209600], (UpdateCompleted gen_id path url' (now w)).
    + exists Returned,
        [Sleep 5; StatusQuery runpod_job_id;
         UpdateFailed gen_id (JStr "No download URL received") (now w)].
      split; [intros s; by rewrite <- !app_assoc|]. split; [done|]. split; [done|].
      by exists [Sleep 5; StatusQuery runpod_job_id],
             (UpdateFailed gen_id (JStr "No download URL received") (now w)).
  - destruct (eq_str st "FAILED" || eq_str st "ERROR"); simpl.
    + set (err := dict_get result "error" (JStr "Unknown error")).
      exists Returned,
        [Sleep 5; StatusQuery runpod_job_id; UpdateFailed gen_id err (now w)].
      split; [intros s; by rewrite <- !app_assoc|]. split; [done|]. split; [done|].
      by exists [Sleep 5; StatusQuery runpod_job_id], (UpdateFailed gen_id err (now w)).
    + exists NextAttempt, [Sleep 5; StatusQuery runpod_job_id].
      split; [intros s; by rewrite <- !app_assoc|done].
Qed.

Lemma poll_loop_uniform (env : nat -> world) (gen_id runpod_job_id : string)
    (n : nat) : forall (i : nat),
  exists (f : flow) (evs : list event),
    (forall s, poll_loop env gen_id runpod_job_id n i s =
       (Returns f, {| table := replay evs (table s); trace := trace s ++ evs |}))
    /\ seconds_slept evs = 5 * Z.of_nat (polls evs)
    /\ match f with
       | NextAttempt => writes evs = [] /\ polls evs = n
       | Returned => exists pre wr, evs = pre ++ [wr] /\ writes pre = []
                                    /\ terminal_write gen_id wr
                                    /\ (1 <= polls pre <= n)%nat
       end.
Proof.
  induction n as [|n IH]; intros i; simpl.
  - exists NextAttempt, []. split; [|done].
    intros s. unfold ret. rewrite app_nil_r. by destruct s.
  - destruct (attempt_uniform (env i) gen_id runpod_job_id)
      as (f & evs & Ha & Hp & Hs & Hf).
    destruct f.
    + destruct (IH (S i)) as (f' & evs' & Hl & Hs' & Hf').
      exists f', (evs ++ evs'). split.
      { intros s. unfold bind. rewrite Ha, Hl. simpl.
        by rewrite replay_app, app_assoc. }
      rewrite seconds_slept_app, polls_app, Hs, Hs', Hp. split; [lia|].
      destruct f'.
      * destruct Hf' as [Hw Hn]. rewrite writes_app, Hf, Hw, Hn. done.
      * destruct Hf' as (pre & wr & -> & Hw & Ht & Hn).
        exists (evs ++ pre), wr. rewrite app_assoc, writes_app, polls_app, Hf, Hw, Hp.
        repeat split; [done|lia|lia].
    + exists Returned, evs. split.
      { intros s. unfold bind. by rewrite Ha. }
      rewrite Hs, Hp. split; [lia|].
      destruct Hf as (pre & wr & -> & Hw & Ht).
      exists pre, wr. rewrite polls_app, (terminal_write_no_poll gen_id wr Ht) in Hp.
      repeat split; [done|done|lia|lia].
Qed.

(** The calls of a run and its one write depend on the worlds only. *)
Lemma process_tts_job_uniform (env : nat -> world) (gen_id runpod_job_id : string) :
  exists (pre : list event) (wr : event),
    (forall s, process_tts_job env gen_id runpod_job_id s =
       (Returns tt, {| table := apply_event wr (table s);
                       trace := trace s ++ pre ++ [wr] |}))
    /\ writes pre = [] /\ terminal_write gen_id wr
    /\ (1 <= polls pre <= max_attempts)%nat
    /\ seconds_slept (pre ++ [wr]) = 5 * Z.of_nat (polls pre).
Proof.
  destruct (poll_loop_uniform env gen_id runpod_job_id max_attempts 0)
    as (f & evs & Hl & Hs & Hf).
  destruct f.
  - destruct Hf as [Hw Hn].
    exists evs, (timeout_write env gen_id). split.
    { intros s. unfold process_tts_job, bind. rewrite Hl.
      unfold update_generation_failed, timeout_write. unfold_M. simpl.
      by rewrite (replay_no_writes _ _ Hw), <- app_assoc. }
    rewrite seconds_slept_app, Hs, Hn. simpl.
    repeat split; try done; unfold max_attempts; lia.
  - destruct Hf as (pre & wr & -> & Hw & Ht & Hn).
    exists pre, wr. split.
    { intros s. unfold process_tts_job, bind. rewrite Hl. unfold ret.
      by rewrite replay_app, (replay_no_writes _ _ Hw). }
    rewrite polls_app, (terminal_write_no_poll gen_id wr Ht) in Hs.
    repeat split; try done; lia.
Qed.

Lemma poll_loop_passive (env : nat -> world) (gen_id runpod_job_id : string)
    (calls : nat -> list event) (k : nat) : forall (i : nat) (s : state),
  (forall j s', (j < k)%nat ->
     attempt (env (i + j)%nat) gen_id runpod_job_id s' =
       (Returns NextAttempt, extend s' (calls (i + j)%nat))) ->
  poll_loop env gen_id runpod_job_id k i s =
    (Returns NextAttempt, extend s (flat_map calls (seq i k))).
Proof.
  induction k as [|k IH]; intros i s H; simpl.
  - unfold ret, extend. rewrite app_nil_r. by destruct s.
  - unfold bind. specialize (H 0%nat s ltac:(lia)) as H0.
    rewrite Nat.add_0_r in H0. rewrite H0, IH.
    + unfold extend. simpl. by rewrite <- app_assoc.
    + intros j s' Hj. specialize (H (S j) s' ltac:(lia)).
      by replace (S i + j)%nat with (i + S j)%nat by lia.
Qed.

(** X1: a terminal update for an id that is not in the table (a record
    deleted in the meantime) changes nothing and returns [None], and a whole
    run for such an id returns normally with the table as it was. *)
Theorem process_tts_job_on_missing_record (env : nat -> world) (w : world)
    (gen_id runpod_job_id path : string) (url err : json) (s : state)
    (Hgone : table s !! gen_id = None) :
  update_generation_failed w gen_id err s =
    (Returns None, extend s [UpdateFailed gen_id err (now w)])
  /\ update_generation_completed w gen_id path url s =
       (Returns None, extend s [UpdateCompleted gen_id path url (now w)])
  /\ exists evs,
       process_tts_job env gen_id runpod_job_id s = (Returns tt, extend s evs).
Proof.
  split; [|split].
  - unfold update_generation_failed. unfold_M. simpl.
    by rewrite (alter_absent _ _ _ Hgone), Hgone.
  - unfold update_generation_completed. unfold_M. simpl.
    by rewrite (alter_absent _ _ _ Hgone), Hgone.
  - destruct (process_tts_job_uniform env gen_id runpod_job_id)
      as (pre & wr & H & _ & Ht & _).
    exists (pre ++ [wr]). rewrite H. unfold extend. f_equal. f_equal.
    destruct wr; try done; simpl in *; subst; by apply alter_absent.
Qed.

Lemma process_tts_job_on_missing_record_witness :
  let deleted := snd (delete_generation remove_raises "gen-1" completed_state) in
  exists evs,
    process_tts_job (fun _ => completed_world) "gen-1" "run-42" deleted
    = (Returns tt, extend deleted evs).
Proof.
  exact (proj2 (proj2 (process_tts_job_on_missing_record
           (fun _ => completed_world) completed_world "gen-1" "run-42" ""
           JNull JNull
           (snd (delete_generation remove_raises "gen-1" completed_state))
           eq_refl))).
Defined.

(** X2: when every poll reports COMPLETED with a download reference but
    the download raises each time, nothing is ever uploaded or written
    during the 60 attempts, and the run ends by marking the record failed
    with "Generation timed out". *)
Theorem process_tts_job_download_never_succeeds (env : nat -> world)
    (gen_id runpod_job_id : string) (s : state) (g : Generation)
    (url : nat -> json)
    (Hrow : table s !! gen_id = Some g)
    (Hpolls : forall i, (i < 60)%nat ->
       exists result,
         check_tts_status (env i) runpod_job_id = Returns result
         /\ result !! "status" = Some (JStr "COMPLETED")
         /\ dict_get result "download_url" JNull = url i
         /\ truthy (url i) = true
         /\ exists e, download_audio (env i) (url i) = Raises e) :
  let err := JStr "Generation timed out" in
  let at_ := now (env 60%nat) in
  let calls := flat_map (fun i => [Sleep 5; StatusQuery runpod_job_id;
                                   Download (url i)]) (seq 0 60) in
  process_tts_job env gen_id runpod_job_id s =
    (Returns tt,
     {| table := <[gen_id := set_failed err at_ g]> (table s);
        trace := trace s ++ calls ++ [UpdateFailed gen_id err at_] |})
  /\ List.filter is_upload calls = [] /\ writes calls = [].
Proof.
  intros err at_ calls. split.
  - unfold process_tts_job, bind.
    rewrite (poll_loop_passive env gen_id runpod_job_id
               (fun i => [Sleep 5; StatusQuery runpod_job_id; Download (url i)])).
    + unfold update_generation_failed. unfold_M. simpl.
      by rewrite (alter_present _ _ _ _ Hrow), <- app_assoc.
    + intros j s' Hj. simpl.
      destruct (Hpolls j Hj) as (result & Hc & Hst & Hu & Ht & e & Hd).
      unfold attempt, attempt_try, index. unfold_M. simpl.
      rewrite Hc, Hst. simpl. rewrite Hu, Ht, Hd. simpl.
      by rewrite <- !app_assoc.
  - subst calls. generalize (seq 0 60). intros l.
    induction l as [|i l [IH1 IH2]]; [done|]. simpl. by split.
Qed.

Lemma process_tts_job_download_never_succeeds_witness :
  status <$> table (snd (process_tts_job (fun _ => expired_link_world)
                           "gen-1" "run-42" sample_state)) !! "gen-1"
  = Some "failed".
Proof.
  assert (Hpolls : forall i, (i < 60)%nat ->
    exists result,
      check_tts_status expired_link_world "run-42" = Returns result
      /\ result !! "status" = Some (JStr "COMPLETED")
      /\ dict_get result "download_url" JNull = JStr "https://cdn.example/a.mp3"
      /\ truthy (JStr "https://cdn.example/a.mp3") = true
      /\ exists e, download_audio expired_link_world
                     (JStr "https://cdn.example/a.mp3") = Raises e).
  { intros i Hi.
    exists (<["download_url" := JStr "https://cdn.example/a.mp3"]>
              {[ "status" := JStr "COMPLETED" ]}).
    split; [reflexivity|]. split; [reflexivity|]. split; [reflexivity|].
    split; [reflexivity|]. eexists. reflexivity. }
  destruct (process_tts_job_download_never_succeeds (fun _ => expired_link_world)
              "gen-1" "run-42" sample_state sample_generation
              (fun _ => JStr "https://cdn.example/a.mp3") eq_refl Hpolls)
    as [H _].
  rewrite H. simpl. by rewrite lookup_insert_eq.
Defined.

(** X3: when the audio was downloaded and uploaded but the signing call
    raises or answers something that is not an object, the attempt leaves
    the record untouched and the loop goes on: the file is in the storage,
    the record is not completed. *)
Theorem attempt_signing_failure_after_upload (w : world)
    (gen_id runpod_job_id : string) (s : state) (result : gmap string json)
    (audio : list Byte.byte)
    (Hpoll : check_tts_status w runpod_job_id = Returns result)
    (Hstatus : result !! "status" = Some (JStr "COMPLETED"))
    (Hurl : truthy (dict_get result "download_url" JNull) = true)
    (Hdownload : download_audio w (dict_get result "download_url" JNull)
                 = Returns audio)
    (Hupload : storage_upload w (gen_id +:+ ".mp3") audio = Returns tt)
    (Hsigned : match storage_create_signed_url w (gen_id +:+ ".mp3") 1209600 with
               | Returns answer => is_object answer = false
               | Raises _ => True
               end) :
  attempt w gen_id runpod_job_id s =
    (Returns NextAttempt,
     extend s [Sleep 5; StatusQuery runpod_job_id;
               Download (dict_get result "download_url" JNull);
               Upload (gen_id +:+ ".mp3") audio;
               CreateSignedUrl (gen_id +:+ ".mp3") 1209600]).
Proof.
  unfold attempt, attempt_try, update_generation_completed,
    upload_audio_to_storage, index.
  unfold_M. simpl. rewrite Hpoll, Hstatus. simpl. rewrite Hurl, Hdownload. simpl.
  rewrite Hupload. simpl.
  destruct (storage_create_signed_url w (gen_id +:+ ".mp3") 1209600)
    as [answer|e]; simpl.
  - destruct answer; try done; simpl; by rewrite <- !app_assoc.
  - by rewrite <- !app_assoc.
Qed.

Lemma attempt_signing_failure_after_upload_witness :
  let w := make_world unreachable (Returns (json_response completed_answer))
             (Returns audio_response) (Returns tt) unreachable in
  table (snd (attempt w "gen-1" "run-42" sample_state)) = table sample_state
  /\ fst (attempt w "gen-1" "run-42" sample_state) = Returns NextAttempt.
Proof.
  pose proof (attempt_signing_failure_after_upload
                (make_world unreachable (Returns (json_response completed_answer))
                   (Returns audio_response) (Returns tt) unreachable)
                "gen-1" "run-42" sample_state
                (<["download_url" := JStr "https://cdn.example/a.mp3"]>
                   {[ "status" := JStr "COMPLETED" ]})
                [Byte.x49; Byte.x44; Byte.x33]
                eq_refl eq_refl eq_refl eq_refl eq_refl I) as H.
  simpl. rewrite H. by split.
Defined.


Lemma check_tts_status_output_not_object (w : world) (run_id : string)
    (resp : response) (d : gmap string json) (v : json) :
  post_status w run_id = Returns resp ->
  json_body resp = Returns (JObj d) ->
  d !! "status" = Some (JStr "COMPLETED") ->
  d !! "output" = Some v -> is_object v = false ->
  poll_raises w run_id = true.
Proof.
  intros Hp Hj Hst Ho Hv. unfold poll_raises, check_tts_status.
  rewrite Hp. simpl. rewrite Hj. simpl.
  replace (dict_get d "status" (JStr "UNKNOWN")) with (JStr "COMPLETED")
    by (unfold dict_get; by rewrite Hst).
  simpl. replace (dict_get d "output" (JObj ∅)) with v
    by (unfold dict_get; by rewrite Ho).
  by destruct v.
Qed.

(** X5: when every status answer says COMPLETED with an "output" that is
    present but not an object (null, say), each poll raises inside
    [check_tts_status], the job is taken as still pending, and after 60
    attempts the record is failed with "Generation timed out". *)
Theorem process_tts_job_completed_output_not_object (env : nat -> world)
    (gen_id runpod_job_id : string) (s : state) (g : Generation)
    (Hrow : table s !! gen_id = Some g)
    (Hpolls : forall i, (i < 60)%nat ->
       exists resp d v,
         post_status (env i) runpod_job_id = Returns resp
         /\ json_body resp = Returns (JObj d)
         /\ d !! "status" = Some (JStr "COMPLETED")
         /\ d !! "output" = Some v /\ is_object v = false) :
  let err := JStr "Generation timed out" in
  let at_ := now (env 60%nat) in
  process_tts_job env gen_id runpod_job_id s =
    (Returns tt,
     {| table := <[gen_id := set_failed err at_ g]> (table s);
        trace := trace s ++ idle_calls runpod_job_id 60
                         ++ [UpdateFailed gen_id err at_] |}).
Proof.
  intros err at_. unfold process_tts_job, bind.
  rewrite (poll_loop_idle env gen_id runpod_job_id max_attempts 0 s).
  - unfold update_generation_failed. unfold_M. simpl.
    by rewrite (alter_present _ _ _ _ Hrow), <- app_assoc.
  - intros j Hj. simpl.
    destruct (Hpolls j Hj) as (resp & d & v & Hp & Hjs & Hst & Ho & Hv).
    by rewrite (check_tts_status_output_not_object _ _ _ _ _ Hp Hjs Hst Ho Hv).
Qed.

Lemma process_tts_job_completed_output_not_object_witness :
  error <$> table (snd (process_tts_job (fun _ => null_output_world)
                          "gen-1" "run-42" sample_state)) !! "gen-1"
  = Some (JStr "Generation timed out").
Proof.
  assert (Hpolls : forall i, (i < 60)%nat ->
    exists resp d v,
      post_status null_output_world "run-42" = Returns resp
      /\ json_body resp = Returns (JObj d)
      /\ d !! "status" = Some (JStr "COMPLETED")
      /\ d !! "output" = Some v /\ is_object v = false).
  { intros i Hi. eexists _, _, JNull.
    split; [reflexivity|]. split; [reflexivity|]. split; [reflexivity|].
    split; reflexivity. }
  rewrite (process_tts_job_completed_output_not_object (fun _ => null_output_world)
             "gen-1" "run-42" sample_state sample_generation eq_refl Hpolls).
  simpl. by rewrite lookup_insert_eq.
Defined.

(** X6: no run looks at the record's status before writing, so a second
    run for the same Generation rewrites the terminal state the first one
    left: the final status is the second run's, and when the first run
    completed the record and the second fails it, the failed record still
    carries the first run's storage_path and file_url. *)
Theorem second_run_rewrites_terminal_state (env1 env2 : nat -> world)
    (gen_id job1 job2 : string) (s : state) (g : Generation)
    (Hrow : table s !! gen_id = Some g) :
  let s1 := snd (process_tts_job env1 gen_id job1 s) in
  let s2 := snd (process_tts_job env2 gen_id job2 s1) in
  exists wr1 wr2,
    terminal_write gen_id wr1 /\ terminal_write gen_id wr2
    /\ table s1 !! gen_id = Some (row_after wr1 g)
    /\ table s2 !! gen_id = Some (row_after wr2 (row_after wr1 g))
    /\ table (snd (process_tts_job env2 gen_id job2 s)) !! gen_id
       = Some (row_after wr2 g)
    /\ status (row_after wr2 (row_after wr1 g)) = status (row_after wr2 g)
    /\ match wr1, wr2 with
       | UpdateCompleted _ path url _, UpdateFailed _ err _ =>
           status (row_after wr2 (row_after wr1 g)) = "failed"
           /\ storage_path (row_after wr2 (row_after wr1 g)) = JStr path
           /\ file_url (row_after wr2 (row_after wr1 g)) = url
           /\ error (row_after wr2 (row_after wr1 g)) = err
       | _, _ => True
       end.
Proof.
  intros s1 s2. subst s1 s2.
  destruct (process_tts_job_uniform env1 gen_id job1) as (pre1 & wr1 & H1 & _ & Ht1 & _).
  destruct (process_tts_job_uniform env2 gen_id job2) as (pre2 & wr2 & H2 & _ & Ht2 & _).
  exists wr1, wr2. rewrite !H1, !H2. simpl.
  rewrite (apply_terminal_write gen_id wr1 _ g Ht1 Hrow).
  rewrite (apply_terminal_write gen_id wr2 (<[gen_id:=row_after wr1 g]> (table s))
             (row_after wr1 g) Ht2 (lookup_insert_eq _ _ _)).
  rewrite (apply_terminal_write gen_id wr2 _ g Ht2 Hrow).
  rewrite !lookup_insert_eq.
  do 5 (split; [done|]). split.
  - destruct wr2; done.
  - destruct wr1, wr2; done.
Qed.

Lemma second_run_rewrites_terminal_state_witness :
  table (snd (process_tts_job (fun _ => expired_link_world) "gen-1" "run-43"
                (snd (process_tts_job (fun _ => completed_world) "gen-1" "run-42"
                        sample_state)))) !! "gen-1"
  = Some (set_failed (JStr "Generation timed out") sample_now
            (set_completed "gen-1.mp3" (JStr "https://store.example/signed")
               sample_now sample_generation)).
Proof.
  destruct (second_run_rewrites_terminal_state (fun _ => completed_world)
              (fun _ => expired_link_world) "gen-1" "run-42" "run-43"
              sample_state sample_generation eq_refl)
    as (wr1 & wr2 & _ & _ & _ & _ & _ & _ & _).
  vm_compute. reflexivity.
Defined.

(** X7: the result of [check_tts_status] always has a "status"; it has a
    "download_url" exactly when that status is COMPLETED, an "error" exactly
    when it is FAILED or ERROR, and no other key. *)
Theorem check_tts_status_result_keys (w : world) (run_id : string)
    (result : gmap string json)
    (Hpoll : check_tts_status w run_id = Returns result) :
  exists st,
    result !! "status" = Some st
    /\ match result !! "download_url" with
       | Some _ => eq_str st "COMPLETED" = true
       | None => eq_str st "COMPLETED" = false
       end
    /\ match result !! "error" with
       | Some _ => eq_str st "FAILED" || eq_str st "ERROR" = true
       | None => eq_str st "FAILED" || eq_str st "ERROR" = false
       end
    /\ forall key, key <> "status" -> key <> "download_url" -> key <> "error" ->
         result !! key = None.
Proof.
  unfold check_tts_status in Hpoll.
  destruct (post_status w run_id) as [resp|]; [simpl in Hpoll|done].
  destruct (json_body resp) as [data|]; [simpl in Hpoll|done].
  destruct data as [| | | | |d]; try done. simpl in Hpoll.
  set (st := dict_get d "status" (JStr "UNKNOWN")) in *. exists st.
  destruct (eq_str st "COMPLETED") eqn:Hc.
  - destruct (get (dict_get d "output" (JObj ∅)) "download_url" JNull); [|done].
    simpl in Hpoll. injection Hpoll as <-.
    assert (Hf : eq_str st "FAILED" || eq_str st "ERROR" = false).
    { apply eq_str_true in Hc. by rewrite Hc. }
    rewrite lookup_insert_eq, !lookup_insert_ne, !lookup_singleton_eq by done.
    rewrite lookup_singleton_ne by done.
    repeat split; try done. intros key H1 H2 H3.
    by rewrite lookup_insert_ne, lookup_singleton_ne.
  - destruct (eq_str st "FAILED" || eq_str st "ERROR") eqn:Hf;
      simpl in Hpoll; injection Hpoll as <-.
    + rewrite lookup_insert_eq, !lookup_insert_ne, !lookup_singleton_eq by done.
      rewrite lookup_singleton_ne by done.
      repeat split; try done. intros key H1 H2 H3.
      by rewrite lookup_insert_ne, lookup_singleton_ne.
    + rewrite lookup_singleton_eq, !lookup_singleton_ne by done.
      repeat split; try done. intros key H1 H2 H3.
      by rewrite lookup_singleton_ne.
Qed.

Lemma check_tts_status_result_keys_witness :
  exists st,
    (<["error" := JStr "CUDA out of memory"]>
       ({[ "status" := JStr "FAILED" ]} : gmap string json)) !! "status" = Some st
    /\ eq_str st "COMPLETED" = false.
Proof.
  destruct (check_tts_status_result_keys failed_world "run-42"
              (<["error" := JStr "CUDA out of memory"]> {[ "status" := JStr "FAILED" ]})
              eq_refl)
    as (st & Hst & Hd & _).
  exists st. split; [exact Hst|exact Hd].
Defined.

Lemma get_generation_lookup (gen_id : string) (s : state) :
  get_generation gen_id s = (Returns (table s !! gen_id), s).
Proof.
  unfold get_generation, select_execute. unfold_M.
  by destruct (table s !! gen_id).
Qed.

(** X8: what is stored reads back.  The record returned by
    [create_generation] is the one [get_generation] finds under its id; after
    [update_generation_completed] or [update_generation_failed] the record
    found has the new status and values, and its id, text, title,
    description and creation time are those it was created with. *)
Theorem store_round_trip (w w' : world) (text_content path : string)
    (title description url err : json) (s : state) :
  let created :=
    {| id := uuid4 w; title := title; description := description;
       text_content := text_content; status := "processing"; created_at := now w;
       storage_path := JNull; file_url := JNull; error := JNull;
       completed_at := JNull |} in
  let s1 := snd (create_generation w text_content title description s) in
  fst (create_generation w text_content title description s) = Returns (Some created)
  /\ fst (get_generation (uuid4 w) s1) = Returns (Some created)
  /\ fst (get_generation (uuid4 w)
            (snd (update_generation_completed w' (uuid4 w) path url s1)))
     = Returns (Some {| id := uuid4 w; title := title; description := description;
                        text_content := text_content; status := "completed";
                        created_at := now w; storage_path := JStr path;
                        file_url := url; error := JNull;
                        completed_at := JStr (now w') |})
  /\ fst (get_generation (uuid4 w)
            (snd (update_generation_failed w' (uuid4 w) err s1)))
     = Returns (Some {| id := uuid4 w; title := title; description := description;
                        text_content := text_content; status := "failed";
                        created_at := now w; storage_path := JNull;
                        file_url := JNull; error := err;
                        completed_at := JStr (now w') |}).
Proof.
  intros created s1. subst s1. rewrite !get_generation_lookup.
  unfold create_generation, insert_execute, update_generation_completed,
    update_generation_failed.
  unfold_M. simpl. fold created.
  rewrite !alter_insert_eq, !lookup_insert_eq. done.
Qed.

(** X9: [delete_generation] answers [False] and changes nothing for an
    unknown id; for a known id it answers [True] and the record is gone,
    whatever the storage does when asked to remove the file, also when it
    raises; no other record is touched, and deleting again answers
    [False]. *)
Theorem delete_generation_effect (storage_remove : list json -> outcome unit)
    (gen_id : string) (s : state) :
  let s' := snd (delete_generation storage_remove gen_id s) in
  fst (delete_generation storage_remove gen_id s)
    = Returns (bool_decide (is_Some (table s !! gen_id)))
  /\ s' = {| table := delete gen_id (table s); trace := trace s |}
  /\ fst (get_generation gen_id s') = Returns None
  /\ fst (delete_generation storage_remove gen_id s') = Returns false.
Proof.
  assert (H : delete_generation storage_remove gen_id s =
            (Returns (bool_decide (is_Some (table s !! gen_id))),
             {| table := delete gen_id (table s); trace := trace s |})).
  { unfold delete_generation, bind at 1. rewrite get_generation_lookup.
    destruct (table s !! gen_id) as [g|] eqn:Hrow.
    - unfold delete_execute. unfold_M.
      destruct (truthy (storage_path g)); [|by destruct s].
      destruct (storage_remove [storage_path g]) as [[]|]; by destruct s.
    - unfold ret. rewrite delete_id by done. by destruct s. }
  intros s'. subst s'. rewrite H. cbn [fst snd].
  split; [done|]. split; [done|].
  rewrite get_generation_lookup. cbn [fst snd table]. rewrite lookup_delete_eq.
  split; [done|].
  unfold delete_generation, bind at 1. rewrite get_generation_lookup.
  cbn [fst snd table]. by rewrite lookup_delete_eq.
Qed.

(** ** The endpoints *)

Lemma api_status_lookup (job_id : string) (s : state) :
  api_status job_id s =
    (match table s !! job_id with
     | None => Raises (HTTPException 404 "Generation not found")
     | Some g =>
         Returns
           (if String.eqb (status g) "completed" then
              {| status_field := status g; play_url := JStr ("/play/" +:+ job_id);
                 mp3_url := file_url g; error_field := JNull |}
            else if String.eqb (status g) "failed" then
              {| status_field := status g; play_url := JNull; mp3_url := JNull;
                 error_field := error g |}
            else
              {| status_field := status g; play_url := JNull; mp3_url := JNull;
                 error_field := JNull |})
     end, s).
Proof.
  unfold api_status, bind at 1. rewrite get_generation_lookup.
  destruct (table s !! job_id) as [g|]; [|done].
  destruct (String.eqb (status g) "completed"); [done|].
  by destruct (String.eqb (status g) "failed").
Qed.

(** X10: after a run over a record of the table, [api_status] never says
    "processing" for it: it answers "completed" with the play URL
    "/play/<id>", the stored file_url as mp3_url and no error, or "failed"
    with the stored error and no URL. *)
Theorem api_status_after_run (env : nat -> world) (gen_id runpod_job_id : string)
    (s : state) (g : Generation)
    (Hrow : table s !! gen_id = Some g) :
  let s' := snd (process_tts_job env gen_id runpod_job_id s) in
  exists g' r,
    table s' !! gen_id = Some g'
    /\ api_status gen_id s' = (Returns r, s')
    /\ ((status_field r = "completed"
         /\ play_url r = JStr ("/play/" +:+ gen_id)
         /\ mp3_url r = file_url g' /\ error_field r = JNull)
        \/ (status_field r = "failed"
            /\ play_url r = JNull /\ mp3_url r = JNull
            /\ error_field r = error g')).
Proof.
  intros s'. subst s'.
  destruct (process_tts_job_uniform env gen_id runpod_job_id)
    as (pre & wr & H & _ & Ht & _).
  rewrite H. cbn [snd]. rewrite api_status_lookup. cbn [table].
  rewrite (apply_terminal_write gen_id wr _ g Ht Hrow), lookup_insert_eq.
  exists (row_after wr g). eexists. split; [done|]. split; [done|].
  destruct wr; try done; simpl; auto 10.
Qed.

Lemma api_status_after_run_witness :
  fst (api_status "gen-1"
         (snd (process_tts_job (switch_after 2 running_world completed_world)
                 "gen-1" "run-42" sample_state)))
  = Returns {| status_field := "completed"; play_url := JStr "/play/gen-1";
               mp3_url := JStr "https://store.example/signed";
               error_field := JNull |}.
Proof.
  destruct (api_status_after_run (switch_after 2 running_world completed_world)
              "gen-1" "run-42" sample_state sample_generation eq_refl)
    as (g' & r & _ & _ & _).
  vm_compute. reflexivity.
Defined.

(** X11: for a request with valid text, the status read right after
    [api_generate] agrees with its answer: "processing" without URL or error
    when the job was submitted, and "failed" with the submission's error
    message when [api_generate] raised HTTP 500. *)
Theorem api_status_after_api_generate (w : world) (request : GenerateRequest)
    (s : state)
    (Hvalid : String.eqb (strip (request_text request)) ""
              || (25000 <? len (strip (request_text request))) = false) :
  let s' := snd (api_generate w request s) in
  match submit_tts_job w (strip (request_text request)) JNull with
  | Returns _ =>
      fst (api_generate w request s)
        = Returns {| job_id := uuid4 w; response_status := "processing" |}
      /\ fst (api_status (uuid4 w) s')
         = Returns {| status_field := "processing"; play_url := JNull;
                      mp3_url := JNull; error_field := JNull |}
  | Raises e =>
      fst (api_generate w request s)
        = Raises (HTTPException 500 ("Failed to submit TTS job: " +:+ str_of_exn e))
      /\ fst (api_status (uuid4 w) s')
         = Returns {| status_field := "failed"; play_url := JNull;
                      mp3_url := JNull; error_field := JStr (str_of_exn e) |}
  end.
Proof.
  intros s'. subst s'. rewrite api_status_lookup.
  apply orb_false_iff in Hvalid as [Hne Hlen].
  unfold api_generate. simpl. rewrite Hne. simpl.
  change MAX_TEXT_LENGTH with 25000. rewrite Hlen.
  destruct (if negb (truthy (request_title request))
            then let '(t, d) := generate_title_and_description w
                                  (strip (request_text request)) in (JStr t, JStr d)
            else let '(_, d) := generate_title_and_description w
                                  (strip (request_text request)) in
                 (request_title request, JStr d)) as [title description].
  unfold create_generation, insert_execute, update_generation_failed. unfold_M.
  simpl.
  destruct (submit_tts_job w (strip (request_text request)) JNull) as [job|e]; simpl.
  - by rewrite lookup_insert_eq.
  - by rewrite lookup_alter_eq, lookup_insert_eq.
Qed.

Lemma api_status_after_api_generate_witness :
  fst (api_status (uuid4 overloaded_world)
         (snd (api_generate overloaded_world
                 {| request_text := "  Hello there  "; request_title := JNull |}
                 sample_state)))
  = Returns {| status_field := "failed"; play_url := JNull; mp3_url := JNull;
               error_field :=
                 JStr "RunPod API failed: 500 - upstream connect error or disconnect" |}.
Proof.
  exact (proj2 (api_status_after_api_generate overloaded_world
                  {| request_text := "  Hello there  "; request_title := JNull |}
                  sample_state eq_refl)).
Defined.

(** X12: for a request with valid text, the stored record holds the
    stripped text as it was sent, asterisks included; its title is the
    request's title when that is given and not empty, and the generated one
    otherwise; its description is always the generated one. *)
Theorem api_generate_stored_fields (w : world) (request : GenerateRequest)
    (s : state)
    (Hvalid : String.eqb (strip (request_text request)) ""
              || (25000 <? len (strip (request_text request))) = false) :
  let text := strip (request_text request) in
  exists row,
    table (snd (api_generate w request s)) !! uuid4 w = Some row
    /\ text_content row = text
    /\ title row = (if truthy (request_title request) then request_title request
                    else JStr (fst (generate_title_and_description w text)))
    /\ description row = JStr (snd (generate_title_and_description w text)).
Proof.
  intros text. fold text in Hvalid. apply orb_false_iff in Hvalid as [Hne Hlen].
  unfold api_generate. fold text. simpl. rewrite Hne. simpl.
  change MAX_TEXT_LENGTH with 25000. rewrite Hlen.
  destruct (generate_title_and_description w text) as [t d].
  unfold create_generation, insert_execute, update_generation_failed. unfold_M.
  destruct (truthy (request_title request)); simpl;
    destruct (submit_tts_job w text JNull) as [job|e]; simpl;
    eexists; (split; [first [apply lookup_insert_eq
                            | rewrite lookup_alter_eq, lookup_insert_eq; done]
                     | done]).
Qed.

Lemma api_generate_stored_fields_witness :
  exists row,
    table (snd (api_generate accepting_world
                  {| request_text := " *Hello* there "; request_title := JStr "" |}
                  sample_state)) !! uuid4 accepting_world = Some row
    /\ text_content row = "*Hello* there"
    /\ title row = JStr "*Hello* there".
Proof.
  destruct (api_generate_stored_fields accepting_world
              {| request_text := " *Hello* there "; request_title := JStr "" |}
              sample_state eq_refl)
    as (row & Hrow & Htext & Htitle & _).
  exists row. split; [exact Hrow|]. split; [exact Htext|exact Htitle].
Defined.

(** X13: a 200 answer to the submission that carries no "id" is accepted:
    [submit_tts_job] returns [None], and [api_generate] answers "processing"
    and schedules the polling task with [None] as the backend job id. *)
Theorem api_generate_accepts_answer_without_id (w : world)
    (request : GenerateRequest) (s : state) (resp : response)
    (d : gmap string json)
    (Hvalid : String.eqb (strip (request_text request)) ""
              || (25000 <? len (strip (request_text request))) = false)
    (Hpost : post_run w (submit_payload (strip (request_text request)) JNull)
             = Returns resp)
    (Hcode : status_code resp = 200)
    (Hjson : json_body resp = Returns (JObj d))
    (Hnoid : d !! "id" = None) :
  submit_tts_job w (strip (request_text request)) JNull = Returns JNull
  /\ fst (api_generate w request s)
     = Returns {| job_id := uuid4 w; response_status := "processing" |}
  /\ exists row,
       trace (snd (api_generate w request s))
       = trace s ++ [Insert row; AddTask (uuid4 w) JNull].
Proof.
  assert (Hsub : submit_tts_job w (strip (request_text request)) JNull
                 = Returns JNull).
  { unfold submit_tts_job. rewrite Hpost. simpl. rewrite Hcode. simpl.
    rewrite Hjson. simpl. unfold dict_get. by rewrite Hnoid. }
  split; [exact Hsub|].
  apply orb_false_iff in Hvalid as [Hne Hlen].
  unfold api_generate. simpl. rewrite Hne. simpl.
  change MAX_TEXT_LENGTH with 25000. rewrite Hlen.
  destruct (if negb (truthy (request_title request))
            then let '(t, d) := generate_title_and_description w
                                  (strip (request_text request)) in (JStr t, JStr d)
            else let '(_, d) := generate_title_and_description w
                                  (strip (request_text request)) in
                 (request_title request, JStr d)) as [title description].
  unfold create_generation, insert_execute. unfold_M. simpl.
  rewrite Hsub. simpl. split; [done|]. eexists. by rewrite <- !app_assoc.
Qed.

Lemma api_generate_accepts_answer_without_id_witness :
  fst (api_generate no_id_world
         {| request_text := "Hello there"; request_title := JNull |} sample_state)
  = Returns {| job_id := uuid4 no_id_world; response_status := "processing" |}.
Proof.
  exact (proj1 (proj2 (api_generate_accepts_answer_without_id no_id_world
                         {| request_text := "Hello there"; request_title := JNull |}
                         sample_state (json_response ∅) ∅
                         eq_refl eq_refl eq_refl eq_refl eq_refl))).
Defined.

(** X14: the player page of an existing record never fails and never
    writes to the table.  For a completed record with a storage path it asks
    for a URL signed for 3600 seconds and shows the record with that URL when
    the answer carries a non-empty one; when the signing fails, and for
    records that are not completed or have no storage path, it shows the
    record as stored. *)
Theorem play_refreshes_without_persisting (w : world) (gen_id : string)
    (s : state) (g : Generation)
    (Hrow : table s !! gen_id = Some g) :
  match storage_path g with
  | JStr path =>
      let refreshing :=
        negb (String.eqb path "") && String.eqb (status g) "completed" in
      let fresh_url :=
        match storage_create_signed_url w path 3600 with
        | Returns (JObj answer) => dict_get answer "signedURL" (JStr "")
        | _ => JStr ""
        end in
      play w gen_id s =
        (Returns (if refreshing && truthy fresh_url then with_file_url fresh_url g
                  else g),
         extend s (if refreshing then [CreateSignedUrl path 3600] else []))
  | _ => play w gen_id s = (Returns g, s)
  end.
Proof.
  destruct (storage_path g) as [|b|q|path|items|fields] eqn:Hp;
    unfold play, bind at 1; rewrite get_generation_lookup, Hrow, Hp.
  - done.
  - by destruct (truthy (JBool b) && String.eqb (status g) "completed").
  - by destruct (truthy (JNum q) && String.eqb (status g) "completed").
  - simpl.
    destruct (negb (String.eqb path "") && String.eqb (status g) "completed");
      cbn [andb].
    + unfold refresh_signed_url. unfold_M. simpl.
      destruct (storage_create_signed_url w path 3600) as [[]|]; simpl; try done.
      by destruct (truthy (dict_get fields "signedURL" (JStr ""))).
    + unfold ret, extend. rewrite app_nil_r. by destruct s.
  - by destruct (truthy (JArr items) && String.eqb (status g) "completed").
  - by destruct (truthy (JObj fields) && String.eqb (status g) "completed").
Qed.

Lemma play_refreshes_without_persisting_witness :
  play unsigned_world "gen-1" completed_state
  = (Returns completed_generation,
     extend completed_state [CreateSignedUrl "gen-1.mp3" 3600]).
Proof.
  exact (play_refreshes_without_persisting unsigned_world "gen-1" completed_state
           completed_generation eq_refl).
Defined.

(** X15: the form endpoint always answers with the redirect to "/" and
    never raises.  Without the right PIN cookie it changes nothing; with it,
    it leaves the table and the log exactly as [api_generate] does for the
    same text and no title: nothing for empty or over-long text, otherwise
    the new record and the scheduled task, or the record marked failed when
    the submission raised. *)
Theorem web_generate_matches_api_generate (PLAYLIST_PIN : string) (w : world)
    (cookie_pin : json) (text : string) (s : state) :
  fst (web_generate PLAYLIST_PIN w cookie_pin text s) = Returns redirect_home
  /\ snd (web_generate PLAYLIST_PIN w cookie_pin text s)
     = if check_pin PLAYLIST_PIN cookie_pin
       then snd (api_generate w {| request_text := text; request_title := JNull |} s)
       else s.
Proof.
  unfold web_generate, api_generate. simpl.
  destruct (check_pin PLAYLIST_PIN cookie_pin); simpl; [|done].
  destruct (String.eqb (strip text) ""); simpl; [done|].
  destruct (MAX_TEXT_LENGTH <? len (strip text)); [done|].
  destruct (generate_title_and_description w (strip text)) as [t d].
  unfold create_generation, insert_execute, update_generation_failed. unfold_M.
  simpl. by destruct (submit_tts_job w (strip text) JNull).
Qed.

Lemma delete_generation_state (storage_remove : list json -> outcome unit)
    (gen_id : string) (s : state) :
  delete_generation storage_remove gen_id s =
    (Returns (bool_decide (is_Some (table s !! gen_id))),
     {| table := delete gen_id (table s); trace := trace s |}).
Proof.
  unfold delete_generation, bind at 1. rewrite get_generation_lookup.
  destruct (table s !! gen_id) as [g|] eqn:Hrow.
  - unfold delete_execute. unfold_M.
    destruct (truthy (storage_path g)); [|by destruct s].
    destruct (storage_remove [storage_path g]) as [[]|]; by destruct s.
  - unfold ret. rewrite delete_id by done. by destruct s.
Qed.

(** X16: the delete endpoint always answers with the redirect to "/".  A
    request whose cookie is missing or is not the PIN changes nothing; with
    the PIN the record is removed from the table, whether it existed or
    not and whatever the storage answers. *)
Theorem web_delete_effect (PLAYLIST_PIN : string)
    (storage_remove : list json -> outcome unit) (cookie_pin : json)
    (gen_id : string) (s : state) :
  check_pin PLAYLIST_PIN JNull = false
  /\ web_delete PLAYLIST_PIN storage_remove cookie_pin gen_id s =
       (Returns redirect_home,
        if check_pin PLAYLIST_PIN cookie_pin
        then {| table := delete gen_id (table s); trace := trace s |}
        else s).
Proof.
  split; [done|]. unfold web_delete.
  destruct (check_pin PLAYLIST_PIN cookie_pin); simpl; [|done].
  unfold bind. by rewrite delete_generation_state.
Qed.

(** ** Titles and descriptions *)

Lemma length_append (a b : string) :
  String.length (a +:+ b) = (String.length a + String.length b)%nat.
Proof. induction a as [|c a IH]; simpl; [done|by rewrite IH]. Qed.

Lemma ellipsize_length (keep limit : nat) (text : string) :
  (keep + 3 <= limit)%nat ->
  (String.length (GroqService.ellipsize keep limit text) <= limit)%nat.
Proof.
  intros H. unfold GroqService.ellipsize, GroqService.take.
  destruct (limit <? String.length text)%nat eqn:E.
  - rewrite length_append. pose proof (substring_length_le text keep). simpl. lia.
  - apply Nat.ltb_ge in E. lia.
Qed.

(** X17: whatever the text and whatever the completion call does, raise
    or answer anything, the generated title has at most 60 characters and
    the generated description at most 150. *)
Theorem generated_title_and_description_are_bounded
    (_call_groq : string -> outcome string) (text : string) :
  (String.length (fst (GroqService.generate_title_and_description _call_groq text))
   <= 60)%nat
  /\ (String.length (snd (GroqService.generate_title_and_description _call_groq text))
      <= 150)%nat.
Proof.
  unfold GroqService.generate_title_and_description.
  destruct (_call_groq _) as [content|e].
  - unfold GroqService._parse_response.
    destruct (fold_left GroqService.parse_line _ _) as [t d]. simpl.
    split; apply substring_length_le.
  - unfold GroqService._fallback_title_description. simpl.
    split; apply ellipsize_length; lia.
Qed.

Lemma substring_length (s : string) : forall (n : nat),
  String.length (String.substring 0 n s) = Nat.min n (String.length s).
Proof.
  induction s as [|c s IH]; intros [|n]; simpl; try done. by rewrite IH.
Qed.

Lemma contains_char_append (c : ascii) (a b : string) :
  contains_char c (a +:+ b) = contains_char c a || contains_char c b.
Proof.
  induction a as [|x a IH]; simpl; [done|]. by rewrite IH, orb_assoc.
Qed.

Lemma contains_char_substring (c : ascii) (s : string) : forall (n : nat),
  contains_char c s = false -> contains_char c (String.substring 0 n s) = false.
Proof.
  induction s as [|x s IH]; intros [|n] H; simpl in *; try done.
  apply orb_false_iff in H as [-> H]. by apply IH.
Qed.

Lemma contains_char_lstrip (c : ascii) (s : string) :
  contains_char c s = false -> contains_char c (lstrip s) = false.
Proof.
  induction s as [|x s IH]; [done|]. simpl. intros H.
  destruct (isspace x); [|done].
  apply orb_false_iff in H as [_ H]. by apply IH.
Qed.

Lemma contains_char_rstrip (c : ascii) (s : string) :
  contains_char c s = false -> contains_char c (rstrip s) = false.
Proof.
  induction s as [|x s IH]; [done|]. simpl. intros H.
  apply orb_false_iff in H as [Hx H]. specialize (IH H).
  destruct (rstrip s) as [|y kept].
  - destruct (isspace x); [done|]. simpl. by rewrite Hx.
  - simpl in *. by rewrite Hx, IH.
Qed.

Lemma contains_char_first_piece (c : ascii) (s : string) :
  contains_char c (hd EmptyString (GroqService.split c s)) = false.
Proof.
  induction s as [|x s IH]; [done|]. simpl.
  destruct (Ascii.eqb x c) eqn:E; [done|].
  destruct (GroqService.split c s) as [|piece pieces]; simpl in *.
  - by rewrite E.
  - by rewrite E, IH.
Qed.

(** The first piece of [s.split(sep)] is the part of [s] before the first
    separator, the whole of [s] when it has none. *)
Lemma split_first_piece (sep : ascii) (first rest s : string) :
  s = first +:+ rest ->
  contains_char sep first = false ->
  (rest = EmptyString \/ exists r, rest = String sep r) ->
  hd EmptyString (GroqService.split sep s) = first.
Proof.
  revert s. induction first as [|x first IH]; intros s -> Hfree Hrest.
  - change (EmptyString +:+ rest) with rest.
    destruct Hrest as [->|[r ->]]; [done|].
    simpl. by rewrite Ascii.eqb_refl.
  - change (String x first +:+ rest) with (String x (first +:+ rest)).
    simpl in Hfree. apply orb_false_iff in Hfree as [Hx Hfree].
    specialize (IH (first +:+ rest) eq_refl Hfree Hrest).
    simpl. rewrite Hx.
    destruct (GroqService.split sep (first +:+ rest)) as [|piece pieces];
      simpl in *; by rewrite IH.
Qed.

(** X18: when the completion call raises, the title and the description are
    cut from the text itself.  Write the text as a first line, free of line
    feeds, followed by nothing or by a line feed and the remainder.  The
    title is that first line with the white space at its two ends removed,
    whole when it then has at most 60 characters and otherwise its first 57
    characters followed by "..."; it contains no line feed (a carriage
    return inside the line is no line end and stays in the title).  The
    description is the text, whole when it has at most 150 characters and
    otherwise its first 147 characters followed by "...". *)
Theorem fallback_title_and_description (_call_groq : string -> outcome string)
    (text : string) (e : exn) (first rest : string)
    (Hfails : _call_groq (GroqService.prompt (GroqService.ellipsize 1000 1000 text))
              = Raises e)
    (Htext : text = first +:+ rest)
    (Hfirst : contains_char GroqService.newline first = false)
    (Hrest : rest = EmptyString \/ exists r, rest = String GroqService.newline r) :
  let generated := GroqService.generate_title_and_description _call_groq text in
  fst generated =
    (if (60 <? String.length (strip first))%nat
     then GroqService.take 57 (strip first) +:+ "..." else strip first)
  /\ contains_char GroqService.newline (fst generated) = false
  /\ snd generated =
       (if (150 <? String.length text)%nat
        then GroqService.take 147 text +:+ "..." else text).
Proof.
  intros generated. subst generated.
  unfold GroqService.generate_title_and_description. rewrite Hfails.
  unfold GroqService._fallback_title_description. cbn [fst snd].
  rewrite (split_first_piece _ first rest text Htext Hfirst Hrest).
  split; [done|]. split; [|done].
  unfold GroqService.ellipsize, GroqService.take, strip.
  assert (Hline : contains_char GroqService.newline (rstrip (lstrip first)) = false)
    by (by apply contains_char_rstrip, contains_char_lstrip).
  destruct (60 <? String.length (rstrip (lstrip first)))%nat; [|done].
  rewrite contains_char_append, contains_char_substring by done. done.
Qed.

Lemma fallback_title_and_description_witness :
  let text := "  A first" +:+ String (ascii_of_nat 13) " line  "
              +:+ String GroqService.newline "and a second one" in
  let generated :=
    GroqService.generate_title_and_description
      (fun _ => Raises (Exception "RateLimitError")) text in
  fst generated = "A first" +:+ String (ascii_of_nat 13) " line"
  /\ snd generated = text.
Proof.
  intros text generated.
  destruct (fallback_title_and_description
              (fun _ => Raises (Exception "RateLimitError")) text
              (Exception "RateLimitError")
              ("  A first" +:+ String (ascii_of_nat 13) " line  ")
              (String GroqService.newline "and a second one")
              eq_refl eq_refl eq_refl
              (or_intror (ex_intro _ "and a second one" eq_refl)))
    as (Htitle & _ & Hdescription).
  split; [exact Htitle|exact Hdescription].
Defined.

Lemma append_assoc (a b c : string) : (a +:+ b) +:+ c = a +:+ (b +:+ c).
Proof.
  induction a as [|x a IH]; [done|].
  change (String x ((a +:+ b) +:+ c) = String x (a +:+ (b +:+ c))).
  by f_equal.
Qed.

Lemma append_nonempty (a b : string) : b <> "" -> a +:+ b <> "".
Proof.
  intros Hne. destruct a as [|x a]; [exact Hne|].
  change (String x (a +:+ b) <> ""). done.
Qed.

Lemma rstrip_append (a b : string) :
  rstrip b = b -> b <> "" -> rstrip (a +:+ b) = a +:+ b.
Proof.
  intros Hb Hne. induction a as [|x a IH]; [exact Hb|].
  change (rstrip (String x (a +:+ b)) = String x (a +:+ b)).
  simpl. rewrite IH. destruct (a +:+ b) eqn:E; [|done].
  destruct a as [|y a]; [exfalso; exact (Hne E)|].
  change (String y (a +:+ b) = "") in E. discriminate E.
Qed.

Lemma split_without_separator (sep : ascii) (s : string) :
  contains_char sep s = false -> GroqService.split sep s = [s].
Proof.
  induction s as [|x s IH]; [done|]. simpl. intros H.
  apply orb_false_iff in H as [-> H]. by rewrite (IH H).
Qed.

Lemma split_append (sep : ascii) (a b : string) :
  contains_char sep a = false ->
  GroqService.split sep (a +:+ String sep b) = a :: GroqService.split sep b.
Proof.
  induction a as [|x a IH]; intros H.
  - change (GroqService.split sep (String sep b) = "" :: GroqService.split sep b).
    simpl. by rewrite Ascii.eqb_refl.
  - change (GroqService.split sep (String x (a +:+ String sep b))
            = String x a :: GroqService.split sep b).
    simpl in *. apply orb_false_iff in H as [-> H]. by rewrite (IH H).
Qed.

Lemma trimmed_line_spec (s : string) :
  trimmed_line s = true ->
  s <> "" /\ contains_char GroqService.newline s = false
  /\ lstrip s = s /\ rstrip s = s.
Proof.
  unfold trimmed_line. intros H.
  apply andb_true_iff in H as [H Hr]. apply andb_true_iff in H as [H Hl].
  apply andb_true_iff in H as [Hne Hnl].
  apply negb_true_iff in Hne, Hnl. apply String.eqb_neq in Hne.
  apply String.eqb_eq in Hl, Hr. done.
Qed.

Lemma parse_line_title (found : string * string) (t : string) :
  trimmed_line t = true ->
  GroqService.parse_line found ("TITLE: " +:+ t) = (t, snd found).
Proof.
  intros H. apply trimmed_line_spec in H as (Hne & _ & Hl & Hr).
  unfold GroqService.parse_line.
  assert (Hs : strip ("TITLE: " +:+ t) = "TITLE: " +:+ t).
  { unfold strip. change (lstrip ("TITLE: " +:+ t)) with ("TITLE: " +:+ t).
    by apply rstrip_append. }
  rewrite Hs.
  change (GroqService.upper_startswith ("TITLE: " +:+ t) "TITLE:") with true.
  cbn iota. f_equal.
  change (GroqService.drop 6 ("TITLE: " +:+ t)) with (" " +:+ t).
  unfold strip. change (lstrip (" " +:+ t)) with (lstrip t). by rewrite Hl, Hr.
Qed.

Lemma parse_line_description (found : string * string) (d : string) :
  trimmed_line d = true ->
  GroqService.parse_line found ("DESCRIPTION: " +:+ d) = (fst found, d).
Proof.
  intros H. apply trimmed_line_spec in H as (Hne & _ & Hl & Hr).
  unfold GroqService.parse_line.
  assert (Hs : strip ("DESCRIPTION: " +:+ d) = "DESCRIPTION: " +:+ d).
  { unfold strip.
    change (lstrip ("DESCRIPTION: " +:+ d)) with ("DESCRIPTION: " +:+ d).
    by apply rstrip_append. }
  rewrite Hs.
  change (GroqService.upper_startswith ("DESCRIPTION: " +:+ d) "TITLE:") with false.
  change (GroqService.upper_startswith ("DESCRIPTION: " +:+ d) "DESCRIPTION:")
    with true.
  cbn iota. f_equal.
  change (GroqService.drop 12 ("DESCRIPTION: " +:+ d)) with (" " +:+ d).
  unfold strip. change (lstrip (" " +:+ d)) with (lstrip d). by rewrite Hl, Hr.
Qed.

(** X19: an answer in the format the prompt asks for is read back: for a
    title and a description that are each a non-empty single line without
    white space at the ends, [_parse_response] returns the title cut to 60
    characters and the description cut to 150, whatever the original
    text. *)
Theorem parse_response_reads_formatted_answer (t d original_text : string)
    (Htitle : trimmed_line t = true)
    (Hdescription : trimmed_line d = true) :
  GroqService._parse_response (formatted_answer t d) original_text
  = (GroqService.take 60 t, GroqService.take 150 d).
Proof.
  pose proof (trimmed_line_spec _ Htitle) as (Hne & Hnl & _ & _).
  pose proof (trimmed_line_spec _ Hdescription) as (Hne' & Hnl' & _ & Hr').
  unfold GroqService._parse_response, formatted_answer.
  set (nl := GroqService.newline) in *.
  assert (Hstrip : strip ("TITLE: " +:+ t +:+ String nl ("DESCRIPTION: " +:+ d))
                   = ("TITLE: " +:+ t) +:+ String nl ("DESCRIPTION: " +:+ d)).
  { unfold strip.
    change (lstrip ("TITLE: " +:+ t +:+ String nl ("DESCRIPTION: " +:+ d)))
      with ("TITLE: " +:+ t +:+ String nl ("DESCRIPTION: " +:+ d)).
    rewrite append_assoc.
    assert (Hlast : rstrip (String nl ("DESCRIPTION: " +:+ d))
                    = String nl ("DESCRIPTION: " +:+ d)).
    { change (String nl ("DESCRIPTION: " +:+ d))
        with ((String nl "DESCRIPTION: ") +:+ d).
      by apply rstrip_append. }
    apply rstrip_append.
    - by apply rstrip_append.
    - by apply append_nonempty. }
  rewrite Hstrip, split_append.
  2: { rewrite contains_char_append, Hnl. done. }
  rewrite split_without_separator.
  2: { rewrite contains_char_append, Hnl'. done. }
  cbn [fold_left]. rewrite parse_line_title, parse_line_description by done.
  cbn [fst snd].
  assert (Ht : truthy (JStr t) = true).
  { simpl. apply negb_true_iff. by apply String.eqb_neq. }
  assert (Hd : truthy (JStr d) = true).
  { simpl. apply negb_true_iff. by apply String.eqb_neq. }
  by rewrite Ht, Hd.
Qed.

Lemma parse_response_reads_formatted_answer_witness :
  GroqService._parse_response
    (formatted_answer "Morning news" "What happened over night")
    "The full text"
  = ("Morning news", "What happened over night").
Proof.
  exact (parse_response_reads_formatted_answer "Morning news"
           "What happened over night" "The full text" eq_refl eq_refl).
Defined.

(** ** Audio conversion and the local model *)

Lemma conversion_result_cases (process : process_result) :
  match conversion_result process with
  | Returns out => returncode process = 0 /\ out = stdout process
  | Raises e =>
      returncode process <> 0
      /\ e = Exception ("Audio conversion failed: "
                        +:+ GroqService.take 200 (stderr process))
      /\ (String.length (str_of_exn e) <= 225)%nat
  end.
Proof.
  unfold conversion_result.
  destruct (returncode process =? 0) eqn:E; cbn [negb].
  - by apply Z.eqb_eq in E.
  - apply Z.eqb_neq in E. split; [done|]. split; [done|].
    cbn [str_of_exn]. rewrite length_append. unfold GroqService.take.
    pose proof (substring_length_le (stderr process) 200).
    change (String.length "Audio conversion failed: ") with 25%nat. lia.
Qed.

(** X20: both converters return ffmpeg's standard output exactly when the
    process could be run and ended with return code 0.  When it ended with
    another code they raise "Audio conversion failed: " followed by at most
    the first 200 characters of the error output, 225 characters at most;
    when the process could not be run, its exception is passed on. *)
Theorem converters_report_bounded_errors
    (ffmpeg : list string -> list Byte.byte -> outcome process_result)
    (audio : list Byte.byte) :
  let describes (args : list string) (result : outcome (list Byte.byte)) :=
      match ffmpeg args audio, result with
      | Returns process, Returns out =>
          returncode process = 0 /\ out = stdout process
      | Returns process, Raises e =>
          returncode process <> 0
          /\ e = Exception ("Audio conversion failed: "
                            +:+ GroqService.take 200 (stderr process))
          /\ (String.length (str_of_exn e) <= 225)%nat
      | Raises e', Raises e => e = e'
      | Raises _, Returns _ => False
      end in
  describes ["-i"; "pipe:0"; "-codec:a"; "libmp3lame"; "-b:a"; "192k"; "-f";
             "mp3"; "pipe:1"]
    (convert_wav_to_mp3 ffmpeg audio)
  /\ describes ["-i"; "pipe:0"; "-c:a"; "libopus"; "-b:a"; "128k"; "-vn"; "-f";
                "ogg"; "pipe:1"]
       (convert_mp3_to_ogg_opus ffmpeg audio).
Proof.
  intros describes. subst describes. cbv beta.
  unfold convert_wav_to_mp3, convert_mp3_to_ogg_opus. split.
  - destruct (ffmpeg _ audio) as [process|e']; cbn [obind]; [|done].
    apply conversion_result_cases.
  - destruct (ffmpeg _ audio) as [process|e']; cbn [obind]; [|done].
    apply conversion_result_cases.
Qed.

(** X21: [is_local_tts_available] looks at the file system on its first
    call only.  Its answer is then kept in the module's global, and every
    later call gives that answer again, whatever has become of the files. *)
Theorem is_local_tts_available_is_decided_once
    (path_exists path_exists_later : string -> bool)
    (KOKORO_MODEL_PATH KOKORO_VOICES_PATH : string) (cache : option bool) :
  let first := is_local_tts_available path_exists KOKORO_MODEL_PATH
                 KOKORO_VOICES_PATH cache in
  is_local_tts_available path_exists_later KOKORO_MODEL_PATH KOKORO_VOICES_PATH
    (snd first) = first
  /\ match cache with
     | None => fst first = path_exists KOKORO_MODEL_PATH
                           && path_exists KOKORO_VOICES_PATH
     | Some known => fst first = known
     end.
Proof. by destruct cache. Qed.
